(** * ollama-model-keeper: the reconciliation loop and its properties

    A shallow embedding of [ollama_model_keeper.py].  The script talks to a
    model-serving daemon through two calls ([client.ps], [client.generate]),
    sleeps, reads the wall clock and writes log lines.  Those effects are
    threaded through a small monad: a computation reads the daemon's
    scripted replies, updates the world (clock and call counters), and
    yields the list of events it performed, in order.

    Conventions taken for the embedding:
    - timestamps and durations are whole seconds, in [Z] (the script uses
      Python floats; only their order and sums matter here);
    - the clock advances through [asyncio.sleep] only, daemon calls and
      clock readings are instantaneous;
    - [KeyboardInterrupt] is delivered inside a daemon call (the blocking
      points of the coroutine), which is where the handler of [main] can
      see it;
    - with [LOG_LEVEL = "INFO"] the [logger.debug] lines print nothing; the
      expressions inside their f-strings are still evaluated, so the
      exceptions they can raise are kept;
    - [datetime.fromtimestamp] accepts every number (no range error);
    - the unbounded [while True] loops take a fuel argument; [OutOfFuel]
      means "still running". *)

From Stdlib Require Import ZArith List String Bool Lia Permutation.
Import ListNotations.
Local Open Scope Z_scope.

(** ** Data received from the daemon *)

(** The value stored under the key ["expires_at"]: a number (epoch
    seconds, [0] standing for "never"), a [datetime] (given by its
    timestamp), or anything else ([None], a string, ...). *)
Inductive PyVal : Type :=
| PyNum (x : Z)
| PyDatetime (ts : Z)
| PyOther.

(** How the reply of [client.ps()] is built: out of plain dicts, or out of
    the response objects of the [ollama] client, which are subscriptable
    and have a [get] of their own. *)
Inductive Shape : Type :=
| Dict
| Object.

(** One entry of the ["models"] list.  [None] is a key missing from a
    dict, or a field left unset on a response object. *)
Record Model : Type := mkModel {
  m_shape : Shape;
  m_name : option string;
  m_expires_at : option PyVal
}.

(** The reply of [client.ps()]; [None] is a missing ["models"] key. *)
Record Response : Type := mkResponse {
  r_models : option (list Model)
}.

(** ** Exceptions, logging, events *)

Inductive exn : Type :=
| KeyError (key : string)
| TypeError
| ClientError (msg : string)
| KeyboardInterrupt.

(** [isinstance(e, Exception)]: everything but [KeyboardInterrupt]. *)
Definition is_Exception (e : exn) : bool :=
  match e with
  | KeyboardInterrupt => false
  | _ => true
  end.

(** The [logger.info] and [logger.error] lines of the script, by content. *)
Inductive Msg : Type :=
| MsgStarting
| MsgEnteringCycle
| MsgAlreadyLoaded (target : string)
| MsgNoModelsNow (target : string)
| MsgOtherWaiting (latest_expires_at : Z)
| MsgStillLoaded (remaining_models : list string)
| MsgOnlyNonExpiring
| MsgNoModels (target : string)
| MsgCycleComplete
| MsgStopped
| MsgRetrying
| MsgLoaded (model_name : string)
| MsgWaiting (remaining_seconds : Z)
| MsgOtherDetected (other_models : list string)
| MsgOnlyTarget (target : string)
| MsgOtherNoExpiration
| MsgNoLongerLoaded (target : string)
| ErrChecking (e : exn)
| ErrLoading (model_name : string) (e : exn)
| ErrMonitoring (e : exn)
| ErrOccurred (e : exn).

Inductive Event : Type :=
| EvPs
| EvGenerate (model : string) (keep_alive : Z)
| EvSleep (seconds : Z)
| EvInfo (m : Msg)
| EvError (m : Msg).

(** ** The daemon and the world *)

Inductive Outcome (A : Type) : Type :=
| Returns (a : A)
| Raises (e : exn).
Arguments Returns {A} a.
Arguments Raises {A} e.

(** What the daemon answers to the n-th [ps] and the n-th [generate]. *)
Record Daemon : Type := mkDaemon {
  ps : nat -> Outcome Response;
  generate : nat -> Outcome string
}.

Record World : Type := mkWorld {
  clock : Z;
  ps_calls : nat;
  generate_calls : nat
}.

(** The world after a probe, after a load request, after a sleep. *)
Definition after_ps (w : World) : World :=
  mkWorld (clock w) (S (ps_calls w)) (generate_calls w).

Definition after_generate (w : World) : World :=
  mkWorld (clock w) (ps_calls w) (S (generate_calls w)).

Definition after_sleep (seconds : Z) (w : World) : World :=
  mkWorld (clock w + Z.max 0 seconds) (ps_calls w) (generate_calls w).

(** ** The monad *)

Inductive Result (A : Type) : Type :=
| Val (a : A)
| Exn (e : exn)
| OutOfFuel.
Arguments Val {A} a.
Arguments Exn {A} e.
Arguments OutOfFuel {A}.

Definition M (A : Type) : Type := World -> Result A * World * list Event.

Definition ret {A} (a : A) : M A := fun w => (Val a, w, []).

Definition bind {A B} (m : M A) (f : A -> M B) : M B := fun w =>
  match m w with
  | (Val a, w1, t1) => let '(r, w2, t2) := f a w1 in (r, w2, t1 ++ t2)
  | (Exn e, w1, t1) => (Exn e, w1, t1)
  | (OutOfFuel, w1, t1) => (OutOfFuel, w1, t1)
  end.

Declare Scope keeper_scope.
Delimit Scope keeper_scope with keeper.
Notation "x <- m ;; k" := (bind m (fun x => k))
  (at level 61, m at next level, right associativity) : keeper_scope.
Notation "m ;; k" := (bind m (fun _ => k))
  (at level 61, right associativity) : keeper_scope.
Local Open Scope keeper_scope.

Definition raise {A} (e : exn) : M A := fun w => (Exn e, w, []).

Definition out_of_fuel {A} : M A := fun w => (OutOfFuel, w, []).

(** [try: m  except ...: h e]. *)
Definition try_except {A} (m : M A) (h : exn -> M A) : M A := fun w =>
  match m w with
  | (Exn e, w1, t1) => let '(r, w2, t2) := h e w1 in (r, w2, t1 ++ t2)
  | other => other
  end.

(** A single [except Exception as e:] clause: other exceptions pass. *)
Definition except_Exception {A} (h : exn -> M A) (e : exn) : M A :=
  if is_Exception e then h e else raise e.

Definition emit (ev : Event) : M unit := fun w => (Val tt, w, [ev]).

Definition logger_info (m : Msg) : M unit := emit (EvInfo m).
Definition logger_error (m : Msg) : M unit := emit (EvError m).

(** [time.time()] *)
Definition time_time : M Z := fun w => (Val (clock w), w, []).

(** [await asyncio.sleep(seconds)] *)
Definition asyncio_sleep (seconds : Z) : M unit := fun w =>
  (Val tt, after_sleep seconds w, [EvSleep seconds]).

(** ** Global variables *)

Definition CYCLE_INTERVAL : Z := 5.
Definition MONITOR_INTERVAL : Z := 60.

(** ** Dictionary access *)

(** [model["name"]]: a key missing from a dict raises [KeyError], and so
    does an unset field of a response object (its [__getitem__] raises
    for a field that is not set and whose default is [None]). *)
Definition getitem_name (model : Model) : M string :=
  match m_name model with
  | Some n => ret n
  | None => raise (KeyError "name"%string)
  end.

(** [model.get("expires_at", 0)].  On a dict the default [0] stands for a
    missing key.  On a response object of the client, [get(key, default)]
    is [getattr(self, key) if hasattr(self, key) else default]: the
    attribute exists on the class, so an unset field reads [None] and the
    default is not used. *)
Definition get_expires_at (model : Model) : PyVal :=
  match m_expires_at model with
  | Some v => v
  | None =>
      match m_shape model with
      | Dict => PyNum 0
      | Object => PyOther
      end
  end.

(** [response.get("models", [])] *)
Definition get_models (response : Response) : list Model :=
  match r_models response with
  | Some l => l
  | None => []
  end.

(** [expires_at == 0] *)
Definition py_eq_zero (v : PyVal) : bool :=
  match v with
  | PyNum x => x =? 0
  | _ => false
  end.

(** [expires_at.timestamp() if isinstance(expires_at, datetime) else
    expires_at] *)
Definition timestamp_or_self (v : PyVal) : PyVal :=
  match v with
  | PyDatetime ts => PyNum ts
  | other => other
  end.

(** Using a value where a number is needed: [datetime.fromtimestamp(v)],
    [v - current_time].  What is not a number raises [TypeError]. *)
Definition as_number (v : PyVal) : M Z :=
  match v with
  | PyNum x => ret x
  | _ => raise TypeError
  end.

(** [[model["name"] for model in models]] *)
Fixpoint model_names_of (models : list Model) : M (list string) :=
  match models with
  | [] => ret []
  | model :: rest =>
      n <- getitem_name model ;;
      ns <- model_names_of rest ;;
      ret (n :: ns)
  end.

(** [x in names] *)
Definition py_in (x : string) (names : list string) : bool :=
  existsb (String.eqb x) names.

(** [[name for name in model_names if name != target_model]] *)
Definition names_other_than (target_model : string) (model_names : list string)
  : list string :=
  filter (fun n => negb (String.eqb n target_model)) model_names.

Inductive LoopCtl : Type := Continue | Break.

Section Keeper.

Variable daemon : Daemon.
Variable TARGET_MODEL : string.

(** [client.ps()] *)
Definition client_ps : M Response := fun w =>
  match ps daemon (ps_calls w) with
  | Returns r => (Val r, after_ps w, [EvPs])
  | Raises e => (Exn e, after_ps w, [EvPs])
  end.

(** [client.generate(model=model, keep_alive=keep_alive)] *)
Definition client_generate (model : string) (keep_alive : Z) : M string :=
  fun w =>
  match generate daemon (generate_calls w) with
  | Returns r => (Val r, after_generate w, [EvGenerate model keep_alive])
  | Raises e => (Exn e, after_generate w, [EvGenerate model keep_alive])
  end.

Definition check_loaded_models : M Response :=
  try_except
    (response <- client_ps ;;
     ret response)
    (except_Exception (fun e =>
       logger_error (ErrChecking e) ;;
       raise e)).

Definition load_model (model_name : string) : M unit :=
  try_except
    (response <- client_generate model_name (-1) ;;
     logger_info (MsgLoaded model_name))
    (except_Exception (fun e =>
       logger_error (ErrLoading model_name e) ;;
       raise e)).

Definition wait_for_unload (expires_at : PyVal) : M unit :=
  let expires_at_timestamp := timestamp_or_self expires_at in
  current_time <- time_time ;;
  ts <- as_number expires_at_timestamp ;;
  let remaining_seconds := Z.max 0 (ts - current_time) in
  if 0 <? remaining_seconds then
    logger_info (MsgWaiting remaining_seconds) ;;
    asyncio_sleep remaining_seconds
  else ret tt.

(** The [for model in models] loop of [monitor_for_other_models]. *)
Fixpoint monitor_latest (models : list Model) (latest_expires_at : Z) : M Z :=
  match models with
  | [] => ret latest_expires_at
  | model :: rest =>
      let expires_at := get_expires_at model in
      if py_eq_zero expires_at then
        _ <- getitem_name model ;;
        monitor_latest rest latest_expires_at
      else
        let expires_at_timestamp := timestamp_or_self expires_at in
        _ <- getitem_name model ;;
        ts <- as_number expires_at_timestamp ;;
        now <- time_time ;;
        if now <? ts then
          monitor_latest rest (Z.max latest_expires_at ts + 5)
        else
          monitor_latest rest latest_expires_at
  end.

(** One turn of the [while True] of [monitor_for_other_models]:
    [Some b] is [return b], [None] goes round again. *)
Definition monitor_step (target_model : string) : M (option bool) :=
  response <- check_loaded_models ;;
  let models := get_models response in
  model_names <- model_names_of models ;;
  if py_in target_model model_names then
    if (1 <? List.length model_names)%nat then
      let other_models := names_other_than target_model model_names in
      logger_info (MsgOtherDetected other_models) ;;
      ret (Some true)
    else
      logger_info (MsgOnlyTarget target_model) ;;
      asyncio_sleep MONITOR_INTERVAL ;;
      ret None
  else
    match models with
    | _ :: _ =>
        latest_expires_at <- monitor_latest models 0 ;;
        (if 0 <? latest_expires_at then
           logger_info (MsgOtherWaiting latest_expires_at) ;;
           wait_for_unload (PyNum latest_expires_at)
         else
           logger_info MsgOtherNoExpiration ;;
           asyncio_sleep MONITOR_INTERVAL) ;;
        ret None
    | [] =>
        logger_info (MsgNoLongerLoaded target_model) ;;
        ret (Some false)
    end.

Fixpoint monitor_loop (target_model : string) (fuel : nat) : M bool :=
  match fuel with
  | O => out_of_fuel
  | S fuel' =>
      r <- monitor_step target_model ;;
      match r with
      | Some b => ret b
      | None => monitor_loop target_model fuel'
      end
  end.

Definition monitor_for_other_models (target_model : string) (fuel : nat)
  : M bool :=
  try_except
    (monitor_loop target_model fuel)
    (except_Exception (fun e =>
       logger_error (ErrMonitoring e) ;;
       raise e)).

(** The [for model in response["models"]] loop of [main]. *)
Fixpoint main_latest (models : list Model) (latest_expires_at : Z) : M Z :=
  match models with
  | [] => ret latest_expires_at
  | model :: rest =>
      let expires_at := get_expires_at model in
      if py_eq_zero expires_at then
        main_latest rest latest_expires_at
      else
        let expires_at_timestamp := timestamp_or_self expires_at in
        _ <- getitem_name model ;;
        ts <- as_number expires_at_timestamp ;;
        now <- time_time ;;
        if now <? ts then
          main_latest rest (Z.max latest_expires_at ts)
        else
          main_latest rest latest_expires_at
  end.

(** The body of the [try] in [main]: one cycle. *)
Definition main_cycle (fuel : nat) : M unit :=
  logger_info MsgEnteringCycle ;;
  response <- check_loaded_models ;;
  model_names <- model_names_of (get_models response) ;;
  (if py_in TARGET_MODEL model_names then
     logger_info (MsgAlreadyLoaded TARGET_MODEL) ;;
     another_model_loaded <- monitor_for_other_models TARGET_MODEL fuel ;;
     if negb another_model_loaded then
       logger_info (MsgNoModelsNow TARGET_MODEL) ;;
       load_model TARGET_MODEL
     else ret tt
   else
     match get_models response with
     | _ :: _ =>
         latest_expires_at <- main_latest (get_models response) 0 ;;
         if 0 <? latest_expires_at then
           logger_info (MsgOtherWaiting latest_expires_at) ;;
           wait_for_unload (PyNum latest_expires_at) ;;
           new_response <- check_loaded_models ;;
           match get_models new_response with
           | [] =>
               logger_info (MsgNoModelsNow TARGET_MODEL) ;;
               load_model TARGET_MODEL
           | _ :: _ =>
               remaining_models <- model_names_of (get_models new_response) ;;
               logger_info (MsgStillLoaded remaining_models)
           end
         else
           logger_info MsgOnlyNonExpiring ;;
           asyncio_sleep MONITOR_INTERVAL
     | [] =>
         logger_info (MsgNoModels TARGET_MODEL) ;;
         load_model TARGET_MODEL
     end) ;;
  logger_info MsgCycleComplete ;;
  asyncio_sleep CYCLE_INTERVAL.

(** One turn of the [while True] of [main], with its two handlers. *)
Definition main_iteration (fuel : nat) : M LoopCtl :=
  try_except
    (main_cycle fuel ;;
     ret Continue)
    (fun e =>
       match e with
       | KeyboardInterrupt =>
           logger_info MsgStopped ;;
           ret Break
       | _ =>
           logger_error (ErrOccurred e) ;;
           logger_info MsgRetrying ;;
           asyncio_sleep 10 ;;
           ret Continue
       end).

Fixpoint main_loop (cycles fuel : nat) : M unit :=
  match cycles with
  | O => out_of_fuel
  | S cycles' =>
      ctl <- main_iteration fuel ;;
      match ctl with
      | Break => ret tt
      | Continue => main_loop cycles' fuel
      end
  end.

Definition main (cycles fuel : nat) : M unit :=
  logger_info MsgStarting ;;
  main_loop cycles fuel.

End Keeper.

(** ** Vocabulary for the statements *)

(** Every entry carries a ["name"]. *)
Definition has_names (models : list Model) : bool :=
  forallb (fun m => match m_name m with Some _ => true | None => false end)
          models.

(** The names of the entries (of a list that [has_names]). *)
Definition names_of (models : list Model) : list string :=
  map (fun m => match m_name m with Some n => n | None => EmptyString end)
      models.

(** The script's test for "never expires": the key is missing or holds the
    number [0]. *)
Definition is_never (m : Model) : bool := py_eq_zero (get_expires_at m).

(** The expiry of an entry that the script does not take for "never". *)
Definition expiry_of (m : Model) : option Z :=
  match get_expires_at m with
  | PyNum x => if x =? 0 then None else Some x
  | PyDatetime ts => Some ts
  | PyOther => None
  end.

(** No entry holds something else than a number or a datetime. *)
Definition typed_expiry (models : list Model) : bool :=
  forallb (fun m => match get_expires_at m with PyOther => false | _ => true end)
          models.


(** The expiries of the entries still to expire, in snapshot order. *)
Fixpoint expiring_timestamps (now : Z) (models : list Model) : list Z :=
  match models with
  | [] => []
  | m :: rest =>
      match expiry_of m with
      | Some ts =>
          if now <? ts then ts :: expiring_timestamps now rest
          else expiring_timestamps now rest
      | None => expiring_timestamps now rest
      end
  end.

(** The largest element of a list of timestamps ([0] when empty). *)
Definition max_of (l : list Z) : Z := fold_right Z.max 0 l.

(** The target is absent and at least one entry is present. *)
Definition others_only (target : string) (models : list Model) : bool :=
  has_names models
  && negb (py_in target (names_of models))
  && match models with [] => false | _ :: _ => true end.



Definition is_generate (ev : Event) : bool :=
  match ev with EvGenerate _ _ => true | _ => false end.

Definition is_ps (ev : Event) : bool :=
  match ev with EvPs => true | _ => false end.

Definition is_error (ev : Event) : bool :=
  match ev with EvError _ => true | _ => false end.

(** How many Loader calls, probes and error lines a run performed. *)
Definition count_generate (evs : list Event) : nat :=
  List.length (filter is_generate evs).

Definition count_ps (evs : list Event) : nat :=
  List.length (filter is_ps evs).

(** A daemon that always gives the same snapshot and always loads. *)
Definition steady_daemon (models : list Model) : Daemon :=
  mkDaemon (fun _ => Returns (mkResponse (Some models)))
           (fun _ => Returns EmptyString).

(** A daemon that gives the listed replies in turn, then [last]. *)
Definition scripted_daemon (replies : list (Outcome Response))
  (last : Outcome Response) (gen : Outcome string) : Daemon :=
  mkDaemon (fun i => nth i replies last) (fun _ => gen).

(** A dict entry with a numeric expiry; a dict entry without the key
    ["expires_at"]; a response object whose [expires_at] is not set. *)
Definition numbered (n : string) (expiry : Z) : Model :=
  mkModel Dict (Some n) (Some (PyNum expiry)).

Definition unnumbered (n : string) : Model := mkModel Dict (Some n) None.

Definition unset (n : string) : Model := mkModel Object (Some n) None.

(** The accumulator of the scan in [monitor_for_other_models]: each
    expiry still ahead replaces it by [max(latest, ts) + 5]. *)
Definition buffered_latest (timestamps : list Z) (latest : Z) : Z :=
  fold_left (fun acc ts => Z.max acc ts + 5) timestamps latest.


(** What the failure boundary of [main] does with an exception [e]. *)
Definition backoff (e : exn) : list Event :=
  [EvError (ErrOccurred e); EvInfo MsgRetrying; EvSleep 10].


(** Other models only, none of which the script takes to expire. *)
Definition others_never (target : string) (models : list Model) : bool :=
  others_only target models && forallb is_never models.

(** The events of a cycle of [main] over such a snapshot. *)
Definition never_cycle : list Event :=
  [EvInfo MsgEnteringCycle; EvPs; EvInfo MsgOnlyNonExpiring;
   EvSleep MONITOR_INTERVAL; EvInfo MsgCycleComplete; EvSleep CYCLE_INTERVAL].

(** The events of a turn of the monitoring loop over such a snapshot. *)
Definition never_turn : list Event :=
  [EvPs; EvInfo MsgOtherNoExpiration; EvSleep MONITOR_INTERVAL].

(** The events of a turn of the monitoring loop over the target alone. *)
Definition alone_turn (target : string) : list Event :=
  [EvPs; EvInfo (MsgOnlyTarget target); EvSleep MONITOR_INTERVAL].

(** The probes numbered from [a] up to [b] (excluded) all returned. *)
Definition probes_ok (daemon : Daemon) (a b : nat) : Prop :=
  forall i, (a <= i < b)%nat -> exists response, ps daemon i = Returns response.

(** A result that is a value, or an exception of class [Exception]. *)
Definition settled {A} (r : Result A) : Prop :=
  match r with
  | Val _ => True
  | Exn e => is_Exception e = true
  | OutOfFuel => False
  end.

(** What the Prober leaves in the log when [client.ps] raises [e]. *)
Definition probe_failure (e : exn) : list Event :=
  EvPs :: (if is_Exception e then [EvError (ErrChecking e)] else []).

(** What the Loader leaves in the log when [client.generate] raises [e]. *)
Definition load_failure (model_name : string) (e : exn) : list Event :=
  EvGenerate model_name (-1)
  :: (if is_Exception e then [EvError (ErrLoading model_name e)] else []).

(** Outcomes of a piece of a cycle run from world [w] to world [w']. *)

(** Every daemon call made has returned; at most one load was made. *)
Definition ran_clean (daemon : Daemon) (w : World) {A} (r : Result A)
  (w' : World) : Prop :=
  (ps_calls w <= ps_calls w')%nat
  /\ probes_ok daemon (ps_calls w) (ps_calls w')
  /\ (generate_calls w' = generate_calls w
      \/ (generate_calls w' = S (generate_calls w)
          /\ exists reply, generate daemon (generate_calls w) = Returns reply))
  /\ (r = OutOfFuel \/ settled r).

(** The last probe raised [e], which ended the piece; no load was made.
    [mid] is what was logged on the way up. *)
Definition probe_failed (daemon : Daemon) (w : World) {A} (r : Result A)
  (w' : World) (evs : list Event) (e : exn) (mid : list Event) : Prop :=
  r = Exn e
  /\ (ps_calls w < ps_calls w')%nat
  /\ probes_ok daemon (ps_calls w) (pred (ps_calls w'))
  /\ ps daemon (pred (ps_calls w')) = Raises e
  /\ generate_calls w' = generate_calls w
  /\ exists pre, evs = pre ++ probe_failure e ++ mid
                 /\ count_generate pre = 0%nat.

(** The one load made raised [e], which ended the piece. *)
Definition load_failed (daemon : Daemon) (target : string) (w : World) {A}
  (r : Result A) (w' : World) (evs : list Event) (e : exn) : Prop :=
  r = Exn e
  /\ (ps_calls w <= ps_calls w')%nat
  /\ probes_ok daemon (ps_calls w) (ps_calls w')
  /\ generate_calls w' = S (generate_calls w)
  /\ generate daemon (generate_calls w) = Raises e
  /\ exists pre, evs = pre ++ load_failure target e
                 /\ count_generate pre = 0%nat.

(** A log line of level INFO. *)
Definition is_info (ev : Event) : bool :=
  match ev with EvInfo _ => true | _ => false end.

(** The cycle made no load. *)
Definition no_load (w w' : World) (evs : list Event) : Prop :=
  generate_calls w' = generate_calls w /\ count_generate evs = 0%nat.

(** The cycle made one load, for [target] with [keep_alive = -1]; the last
    probe before it showed no loaded model, and only log lines separate
    that probe from the load. *)
Definition loaded_after_empty_probe (daemon : Daemon) (target : string)
  (w w' : World) (evs : list Event) : Prop :=
  generate_calls w' = S (generate_calls w)
  /\ (ps_calls w < ps_calls w')%nat
  /\ (exists response,
        ps daemon (pred (ps_calls w')) = Returns response
        /\ get_models response = [])
  /\ exists pre mid post,
       evs = pre ++ EvPs :: mid ++ EvGenerate target (-1) :: post
       /\ forallb is_info mid = true
       /\ count_generate pre = 0%nat
       /\ count_generate post = 0%nat.

(** How many error lines a run logged. *)
Definition count_error (evs : list Event) : nat :=
  List.length (filter is_error evs).


(** The load of a cycle came on its last probe: that probe returned an
    empty snapshot, it is the last [EvPs] of the trace ([post] holds no
    probe, and the probes of [pre] are all the earlier calls of the cycle)
    and only log lines separate it from the one load. *)
Definition loaded_on_last_probe (daemon : Daemon) (target : string)
  (w w' : World) (evs : list Event) : Prop :=
  (exists response,
     ps daemon (pred (ps_calls w')) = Returns response
     /\ get_models response = [])
  /\ exists pre mid post,
       evs = pre ++ EvPs :: mid ++ EvGenerate target (-1) :: post
       /\ forallb is_info mid = true
       /\ ps_calls w' = S (count_ps pre + ps_calls w)
       /\ count_generate pre = 0%nat
       /\ count_generate post = 0%nat
       /\ count_ps post = 0%nat.

(** How a cycle that loads ends: up to its last probe it ran as [pre] and
    reached the world [wl]; after log lines only ([mid]) comes the one
    [generate] request, and then, when the request returns, the success
    line and the [CYCLE_INTERVAL] pause of [main], or else the exception
    of the request. *)
Definition load_closes_cycle (daemon : Daemon) (target : string) (w : World)
  (run : Result unit * World * list Event) : Prop :=
  exists wl pre mid,
    forallb is_info mid = true
    /\ count_generate pre = 0%nat
    /\ ps_calls wl = S (count_ps pre + ps_calls w)
    /\ generate_calls wl = generate_calls w
    /\ run =
       match generate daemon (generate_calls w) with
       | Returns _ =>
           (Val tt, after_sleep CYCLE_INTERVAL (after_generate wl),
            pre ++ EvPs :: mid
            ++ [EvGenerate target (-1); EvInfo (MsgLoaded target);
                EvInfo MsgCycleComplete; EvSleep CYCLE_INTERVAL])
       | Raises e =>
           (Exn e, after_generate wl,
            pre ++ EvPs :: mid ++ load_failure target e)
       end.

(** How a turn of [main] whose cycle loads ends: as [load_closes_cycle]
    says when the request returns; when it raises, the [except] clauses of
    [main] follow the Loader's own: the backoff for an [Exception], the
    stop line for a [KeyboardInterrupt]. *)
Definition load_ends_turn (daemon : Daemon) (target : string) (w : World)
  (run : Result LoopCtl * World * list Event) : Prop :=
  exists wl pre mid,
    forallb is_info mid = true
    /\ count_generate pre = 0%nat
    /\ ps_calls wl = S (count_ps pre + ps_calls w)
    /\ generate_calls wl = generate_calls w
    /\ run =
       match generate daemon (generate_calls w) with
       | Returns _ =>
           (Val Continue, after_sleep CYCLE_INTERVAL (after_generate wl),
            pre ++ EvPs :: mid
            ++ [EvGenerate target (-1); EvInfo (MsgLoaded target);
                EvInfo MsgCycleComplete; EvSleep CYCLE_INTERVAL])
       | Raises e =>
           if is_Exception e
           then (Val Continue, after_sleep 10 (after_generate wl),
                 pre ++ EvPs :: mid
                 ++ [EvGenerate target (-1); EvError (ErrLoading target e)]
                 ++ backoff e)
           else (Val Break, after_generate wl,
                 pre ++ EvPs :: mid
                 ++ [EvGenerate target (-1); EvInfo MsgStopped])
       end.

(** What a cycle whose first probe raises the [Exception] [e] leaves in the
    log: the Prober's error line, then the backoff of [main]. *)
Definition failed_probe_cycle (e : exn) : list Event :=
  [EvInfo MsgEnteringCycle; EvPs; EvError (ErrChecking e)] ++ backoff e.

(** The world after [n] probes and [n] backoffs. *)
Definition after_failed_probes (n : nat) (w : World) : World :=
  mkWorld (clock w + 10 * Z.of_nat n) (ps_calls w + n) (generate_calls w).

(** A daemon call made between the worlds [w] and [w'] was interrupted. *)
Definition interrupted (daemon : Daemon) (w w' : World) : Prop :=
  (exists i, (ps_calls w <= i < ps_calls w')%nat
             /\ ps daemon i = Raises KeyboardInterrupt)
  \/ (exists j, (generate_calls w <= j < generate_calls w')%nat
                /\ generate daemon j = Raises KeyboardInterrupt).
(** * Properties *)

(** ** Running the monad *)

Lemma model_names_of_ok (models : list Model) (w : World) :
  has_names models = true ->
  model_names_of models w = (Val (names_of models), w, []).
Proof.
  induction models as [|m rest IH]; simpl; intros H.
  - reflexivity.
  - apply andb_prop in H. destruct H as [Hm Hrest].
    unfold bind, getitem_name.
    destruct (m_name m); [|discriminate].
    unfold ret at 1. rewrite (IH Hrest). reflexivity.
Qed.

Lemma model_names_of_missing (models : list Model) (w : World) :
  has_names models = false ->
  model_names_of models w = (Exn (KeyError "name"), w, []).
Proof.
  induction models as [|m rest IH]; simpl; intros H.
  - discriminate.
  - unfold bind, getitem_name.
    destruct (m_name m); simpl in *.
    + rewrite (IH H). reflexivity.
    + reflexivity.
Qed.

Lemma model_names_of_run (models : list Model) (w : World) :
  model_names_of models w =
  (if has_names models then Val (names_of models)
   else Exn (KeyError "name"), w, []).
Proof.
  destruct (has_names models) eqn:H.
  - apply model_names_of_ok. assumption.
  - apply model_names_of_missing. assumption.
Qed.

Lemma main_latest_run (models : list Model) (latest : Z) (w : World) :
  has_names models = true ->
  typed_expiry models = true ->
  0 <= latest ->
  main_latest models latest w =
  (Val (Z.max latest (max_of (expiring_timestamps (clock w) models))), w, []).
Proof.
  revert latest.
  induction models as [|m rest IH]; intros latest Hn Ht Hl.
  - simpl. unfold ret. do 2 f_equal. f_equal. lia.
  - simpl in Hn, Ht.
    apply andb_prop in Hn. destruct Hn as [Hm Hn].
    apply andb_prop in Ht. destruct Ht as [Hty Ht].
    simpl. unfold expiry_of, getitem_name.
    destruct (m_name m); [|discriminate].
    destruct (get_expires_at m) as [x|ts|]; [| |discriminate]; simpl.
    + destruct (x =? 0) eqn:Hx.
      * apply IH; assumption.
      * unfold bind, ret, time_time; simpl.
        destruct (clock w <? x) eqn:Hc.
        -- rewrite IH by (assumption || lia). simpl.
           do 2 f_equal. f_equal. lia.
        -- rewrite IH by (assumption || lia). reflexivity.
    + unfold bind, ret, time_time; simpl.
      destruct (clock w <? ts) eqn:Hc.
      * rewrite IH by (assumption || lia). simpl.
        do 2 f_equal. f_equal. lia.
      * rewrite IH by (assumption || lia). reflexivity.
Qed.

Lemma monitor_latest_run (models : list Model) (latest : Z) (w : World) :
  has_names models = true ->
  typed_expiry models = true ->
  monitor_latest models latest w =
  (Val (buffered_latest (expiring_timestamps (clock w) models) latest), w, []).
Proof.
  revert latest.
  induction models as [|m rest IH]; intros latest Hn Ht.
  - reflexivity.
  - simpl in Hn, Ht.
    apply andb_prop in Hn. destruct Hn as [Hm Hn].
    apply andb_prop in Ht. destruct Ht as [Hty Ht].
    simpl. unfold expiry_of, getitem_name.
    destruct (m_name m); [|discriminate].
    destruct (get_expires_at m) as [x|ts|]; [| |discriminate]; simpl.
    + destruct (x =? 0) eqn:Hx.
      * unfold bind, ret; simpl. rewrite IH by assumption. reflexivity.
      * unfold bind, ret, time_time; simpl.
        destruct (clock w <? x) eqn:Hc; rewrite IH by assumption; reflexivity.
    + unfold bind, ret, time_time; simpl.
      destruct (clock w <? ts) eqn:Hc; rewrite IH by assumption; reflexivity.
Qed.

(** ** Facts on the timestamps *)








Lemma buffered_latest_lower (l : list Z) (latest : Z) :
  latest <= buffered_latest l latest.
Proof.
  revert latest. induction l as [|t l IH]; intros latest.
  - simpl. lia.
  - change (buffered_latest (t :: l) latest)
      with (buffered_latest l (Z.max latest t + 5)).
    specialize (IH (Z.max latest t + 5)). lia.
Qed.


(** ** The thin wrappers: Prober, Loader, waiter *)

Section Wrappers.

Variable daemon : Daemon.

Lemma check_loaded_models_returns (w : World) (response : Response) :
  ps daemon (ps_calls w) = Returns response ->
  check_loaded_models daemon w = (Val response, after_ps w, [EvPs]).
Proof.
  intros H. unfold check_loaded_models, try_except, bind, client_ps.
  rewrite H. reflexivity.
Qed.

Lemma check_loaded_models_raises (w : World) (e : exn) :
  ps daemon (ps_calls w) = Raises e ->
  check_loaded_models daemon w =
  (Exn e, after_ps w, probe_failure e).
Proof.
  intros H. unfold check_loaded_models, try_except, bind, client_ps.
  rewrite H. unfold except_Exception. destruct e; reflexivity.
Qed.

Lemma load_model_returns (w : World) (model_name reply : string) :
  generate daemon (generate_calls w) = Returns reply ->
  load_model daemon model_name w =
  (Val tt, after_generate w,
   [EvGenerate model_name (-1); EvInfo (MsgLoaded model_name)]).
Proof.
  intros H. unfold load_model, try_except, bind, client_generate.
  rewrite H. reflexivity.
Qed.

Lemma load_model_raises (w : World) (model_name : string) (e : exn) :
  generate daemon (generate_calls w) = Raises e ->
  load_model daemon model_name w =
  (Exn e, after_generate w, load_failure model_name e).
Proof.
  intros H. unfold load_model, try_except, bind, client_generate.
  rewrite H. unfold except_Exception. destruct e; reflexivity.
Qed.

Lemma wait_for_unload_ahead (w : World) (t : Z) :
  clock w < t ->
  wait_for_unload (PyNum t) w =
  (Val tt, after_sleep (t - clock w) w,
   [EvInfo (MsgWaiting (t - clock w)); EvSleep (t - clock w)]).
Proof.
  intros H. unfold wait_for_unload, bind, time_time; simpl.
  replace (Z.max 0 (t - clock w)) with (t - clock w) by lia.
  destruct (0 <? t - clock w) eqn:E; [reflexivity|].
  apply Z.ltb_ge in E. lia.
Qed.

Lemma wait_for_unload_past (w : World) (t : Z) :
  t <= clock w ->
  wait_for_unload (PyNum t) w = (Val tt, w, []).
Proof.
  intros H. unfold wait_for_unload, bind, time_time; simpl.
  replace (Z.max 0 (t - clock w)) with 0 by lia.
  reflexivity.
Qed.

End Wrappers.

(** A value that is neither number nor datetime stops either scan. *)
Lemma main_latest_untyped (models : list Model) (latest : Z) (w : World) :
  has_names models = true ->
  typed_expiry models = false ->
  main_latest models latest w = (Exn TypeError, w, []).
Proof.
  revert latest. induction models as [|m rest IH]; intros latest Hn Ht.
  - discriminate.
  - simpl in Hn, Ht. apply andb_prop in Hn. destruct Hn as [Hm Hn].
    simpl. unfold getitem_name, bind, time_time, ret.
    destruct (m_name m); [|discriminate].
    destruct (get_expires_at m) as [x|ts|]; simpl in *.
    + destruct (x =? 0); [auto|].
      destruct (clock w <? x); rewrite IH by assumption; reflexivity.
    + destruct (clock w <? ts); rewrite IH by assumption; reflexivity.
    + reflexivity.
Qed.

Lemma monitor_latest_untyped (models : list Model) (latest : Z) (w : World) :
  has_names models = true ->
  typed_expiry models = false ->
  monitor_latest models latest w = (Exn TypeError, w, []).
Proof.
  revert latest. induction models as [|m rest IH]; intros latest Hn Ht.
  - discriminate.
  - simpl in Hn, Ht. apply andb_prop in Hn. destruct Hn as [Hm Hn].
    simpl. unfold getitem_name, bind, time_time, ret.
    destruct (m_name m); [|discriminate].
    destruct (get_expires_at m) as [x|ts|]; simpl in *.
    + destruct (x =? 0); [rewrite IH by assumption; reflexivity|].
      destruct (clock w <? x); rewrite IH by assumption; reflexivity.
    + destruct (clock w <? ts); rewrite IH by assumption; reflexivity.
    + reflexivity.
Qed.


(** ** The Loader *)

Ltac unfold_cycle :=
  unfold main_iteration, main_cycle, monitor_for_other_models, try_except,
    except_Exception, bind, ret, raise, logger_info, logger_error, emit,
    asyncio_sleep.

(** C9: a Loader invocation is one [generate] request for the given name
    with [keep_alive = -1]; what the request returns is not looked at (the
    outcome is the same for every reply), and a failure is logged and
    raised again without a second request. *)
Theorem load_model_single_request (daemon : Daemon) (model_name : string)
  (w : World) :
  load_model daemon model_name w =
  match generate daemon (generate_calls w) with
  | Returns _ =>
      (Val tt, after_generate w,
       [EvGenerate model_name (-1); EvInfo (MsgLoaded model_name)])
  | Raises e =>
      (Exn e, after_generate w,
       EvGenerate model_name (-1)
       :: (if is_Exception e then [EvError (ErrLoading model_name e)] else []))
  end
  /\ filter is_generate (snd (load_model daemon model_name w))
     = [EvGenerate model_name (-1)].
Proof.
  destruct (generate daemon (generate_calls w)) as [reply|e] eqn:G.
  - rewrite (load_model_returns _ _ _ _ G). split; reflexivity.
  - rewrite (load_model_raises _ _ _ _ G). unfold load_failure.
    destruct (is_Exception e); split; reflexivity.
Qed.

(** ** Empty snapshot *)

(** When the first probe of a cycle shows no loaded model, the turn is
    this: one Loader call, for the target, no other probe, and the
    [CYCLE_INTERVAL] pause when the load succeeds. *)
Lemma empty_first_probe_run (daemon : Daemon) (T : string)
  (fuel : nat) (w : World) (response : Response) :
  ps daemon (ps_calls w) = Returns response ->
  get_models response = [] ->
  main_iteration daemon T fuel w =
  match generate daemon (generate_calls w) with
  | Returns _ =>
      (Val Continue,
       after_sleep CYCLE_INTERVAL (after_generate (after_ps w)),
       [EvInfo MsgEnteringCycle; EvPs; EvInfo (MsgNoModels T);
        EvGenerate T (-1); EvInfo (MsgLoaded T);
        EvInfo MsgCycleComplete; EvSleep CYCLE_INTERVAL])
  | Raises e =>
      if is_Exception e then
        (Val Continue, after_sleep 10 (after_generate (after_ps w)),
         [EvInfo MsgEnteringCycle; EvPs; EvInfo (MsgNoModels T);
          EvGenerate T (-1); EvError (ErrLoading T e)] ++ backoff e)
      else
        (Val Break, after_generate (after_ps w),
         [EvInfo MsgEnteringCycle; EvPs; EvInfo (MsgNoModels T);
          EvGenerate T (-1); EvInfo MsgStopped])
  end
  /\ filter is_generate (snd (main_iteration daemon T fuel w))
     = [EvGenerate T (-1)]
  /\ count_ps (snd (main_iteration daemon T fuel w)) = 1%nat.
Proof.
  intros Hps Hempty.
  unfold_cycle.
  erewrite check_loaded_models_returns by eassumption.
  rewrite Hempty. simpl.
  destruct (generate daemon (generate_calls w)) as [reply|e] eqn:G.
  - erewrite load_model_returns by eassumption.
    repeat split; reflexivity.
  - erewrite load_model_raises by eassumption.
    destruct e; repeat split; reflexivity.
Qed.

(** ** Other models that never expire *)


Lemma never_typed (models : list Model) :
  forallb is_never models = true -> typed_expiry models = true.
Proof.
  induction models as [|m rest IH]; simpl; intros H; [reflexivity|].
  apply andb_prop in H. destruct H as [Hm Hrest].
  rewrite (IH Hrest), andb_true_r.
  unfold is_never in Hm. destruct (get_expires_at m); (reflexivity || discriminate).
Qed.

Lemma never_no_timestamps (now : Z) (models : list Model) :
  forallb is_never models = true -> expiring_timestamps now models = [].
Proof.
  induction models as [|m rest IH]; simpl; intros H; [reflexivity|].
  apply andb_prop in H. destruct H as [Hm Hrest].
  unfold is_never in Hm. unfold expiry_of.
  destruct (get_expires_at m) as [x|ts|]; simpl in Hm; try discriminate.
  rewrite Hm. auto.
Qed.

Lemma others_only_inv (T : string) (models : list Model) :
  others_only T models = true ->
  has_names models = true /\ py_in T (names_of models) = false
  /\ exists m rest, models = m :: rest.
Proof.
  unfold others_only. intros H.
  apply andb_prop in H. destruct H as [H H3].
  apply andb_prop in H. destruct H as [H1 H2].
  apply negb_true_iff in H2.
  repeat split; try assumption.
  destruct models as [|m rest]; [discriminate|]. eauto.
Qed.

Section Never.

Variable daemon : Daemon.
Variable T : string.

Lemma never_cycle_run (fuel : nat) (w : World) (response : Response) :
  ps daemon (ps_calls w) = Returns response ->
  others_never T (get_models response) = true ->
  main_iteration daemon T fuel w =
  (Val Continue,
   after_sleep CYCLE_INTERVAL (after_sleep MONITOR_INTERVAL (after_ps w)),
   never_cycle).
Proof.
  intros Hps H. unfold others_never in H.
  apply andb_prop in H. destruct H as [Ho Hn].
  destruct (others_only_inv _ _ Ho) as (Hnames & Hin & m & rest & Hm).
  unfold_cycle.
  erewrite check_loaded_models_returns by eassumption.
  rewrite model_names_of_ok by assumption.
  rewrite Hin. rewrite Hm in *.
  rewrite main_latest_run by (auto using never_typed; lia).
  rewrite never_no_timestamps by assumption.
  reflexivity.
Qed.

Lemma never_turn_run (w : World) (response : Response) :
  ps daemon (ps_calls w) = Returns response ->
  others_never T (get_models response) = true ->
  monitor_step daemon T w =
  (Val None, after_sleep MONITOR_INTERVAL (after_ps w), never_turn).
Proof.
  intros Hps H. unfold others_never in H.
  apply andb_prop in H. destruct H as [Ho Hn].
  destruct (others_only_inv _ _ Ho) as (Hnames & Hin & m & rest & Hm).
  unfold monitor_step.
  unfold_cycle.
  erewrite check_loaded_models_returns by eassumption.
  rewrite model_names_of_ok by assumption.
  rewrite Hin. rewrite Hm in *.
  rewrite monitor_latest_run by (auto using never_typed).
  rewrite never_no_timestamps by assumption.
  reflexivity.
Qed.

(** C6 (amended): as long as the probes show only other models whose
    ["expires_at"] is the number [0] (or is missing from a dict entry), no
    Loader call is made.  Every cycle of [main] sleeps [MONITOR_INTERVAL],
    takes the closing [CYCLE_INTERVAL] pause and probes again, so that its
    probes are [MONITOR_INTERVAL + CYCLE_INTERVAL] apart; every turn of
    the monitoring loop sleeps [MONITOR_INTERVAL] and probes again.  After
    any number [n] of such snapshots both loops are still running. *)
Theorem never_expiring_others_polled (n fuel : nat) (w : World) :
  (forall i, (i < n)%nat ->
     exists response,
       ps daemon (ps_calls w + i) = Returns response /\
       others_never T (get_models response) = true) ->
  main_loop daemon T n fuel w =
    (OutOfFuel,
     mkWorld (clock w + Z.of_nat n * (MONITOR_INTERVAL + CYCLE_INTERVAL))
             (ps_calls w + n) (generate_calls w),
     List.concat (repeat never_cycle n))
  /\ monitor_loop daemon T n w =
    (OutOfFuel,
     mkWorld (clock w + Z.of_nat n * MONITOR_INTERVAL)
             (ps_calls w + n) (generate_calls w),
     List.concat (repeat never_turn n))
  /\ count_generate (List.concat (repeat never_cycle n)) = 0%nat
  /\ count_generate (List.concat (repeat never_turn n)) = 0%nat.
Proof.
  revert w. induction n as [|n IH]; intros w H.
  - destruct w as [c p g]. simpl.
    unfold out_of_fuel. simpl.
    rewrite Z.add_0_r, Nat.add_0_r. repeat split; reflexivity.
  - destruct (H 0%nat ltac:(lia)) as (response & Hps & Hnever).
    rewrite Nat.add_0_r in Hps.
    assert (Hmain : forall i, (i < n)%nat ->
      exists response,
        ps daemon
          (ps_calls (after_sleep CYCLE_INTERVAL
                       (after_sleep MONITOR_INTERVAL (after_ps w))) + i)
        = Returns response /\
        others_never T (get_models response) = true).
    { intros i Hi. destruct (H (S i) ltac:(lia)) as (r & Hr & Hrn).
      exists r. split; [|assumption].
      simpl. rewrite <- Hr. f_equal. lia. }
    assert (Hmon : forall i, (i < n)%nat ->
      exists response,
        ps daemon (ps_calls (after_sleep MONITOR_INTERVAL (after_ps w)) + i)
        = Returns response /\
        others_never T (get_models response) = true).
    { intros i Hi. destruct (H (S i) ltac:(lia)) as (r & Hr & Hrn).
      exists r. split; [|assumption].
      simpl. rewrite <- Hr. f_equal. lia. }
    destruct (IH _ Hmain) as (IHmain & _ & IHc1 & IHc2).
    destruct (IH _ Hmon) as (_ & IHmon & _ & _).
    split; [|split; [|split]].
    + change (main_loop daemon T (S n) fuel w)
        with (bind (main_iteration daemon T fuel)
                (fun ctl => match ctl with
                            | Break => ret tt
                            | Continue => main_loop daemon T n fuel
                            end) w).
      unfold bind. rewrite (never_cycle_run _ _ _ Hps Hnever).
      rewrite IHmain. simpl List.concat. f_equal. f_equal.
      unfold after_sleep, after_ps, MONITOR_INTERVAL, CYCLE_INTERVAL; simpl.
      f_equal; lia.
    + change (monitor_loop daemon T (S n) w)
        with (bind (monitor_step daemon T)
                (fun r => match r with
                          | Some b => ret b
                          | None => monitor_loop daemon T n
                          end) w).
      unfold bind. rewrite (never_turn_run _ _ Hps Hnever).
      rewrite IHmon. simpl List.concat. f_equal. f_equal.
      unfold after_sleep, after_ps, MONITOR_INTERVAL; simpl.
      f_equal; lia.
    + simpl. exact IHc1.
    + simpl. exact IHc2.
Qed.

End Never.

Lemma never_expiring_others_polled_witness :
  let daemon := steady_daemon [numbered "A" 0] in
  let w := mkWorld 50 0 0 in
  (forall i, (i < 3)%nat ->
     exists response,
       ps daemon (ps_calls w + i) = Returns response /\
       others_never "B" (get_models response) = true) /\
  main_loop daemon "B" 3 1 w =
    (OutOfFuel, mkWorld 245 3 0, never_cycle ++ never_cycle ++ never_cycle).
Proof.
  assert (H : forall i, (i < 3)%nat ->
     exists response,
       ps (steady_daemon [numbered "A" 0]) (ps_calls (mkWorld 50 0 0) + i)
       = Returns response /\
       others_never "B" (get_models response) = true).
  { intros i _. exists (mkResponse (Some [numbered "A" 0])).
    split; reflexivity. }
  split; [exact H|].
  exact (proj1 (never_expiring_others_polled
                  (steady_daemon [numbered "A" 0]) "B" 3 1 (mkWorld 50 0 0) H)).
Defined.

(** C6, as stated, fails: over such a snapshot the next probe of [main],
    the first step of its next cycle, does not come [MONITOR_INTERVAL]
    after the last one; the closing pause of the cycle is added to it. *)
Lemma main_polls_never_expiring_slower :
  ~ (forall (daemon : Daemon) (T : string) (fuel : nat) (w : World)
            (response : Response),
       ps daemon (ps_calls w) = Returns response ->
       others_never T (get_models response) = true ->
       clock (snd (fst (main_iteration daemon T fuel w)))
       = clock w + MONITOR_INTERVAL).
Proof.
  intros H.
  specialize (H (steady_daemon [numbered "A" 0]) "B"%string 1%nat
                (mkWorld 50 0 0) (mkResponse (Some [numbered "A" 0]))
                eq_refl eq_refl).
  vm_compute in H. discriminate H.
Qed.


(** C10: the entries whose ["expires_at"] is absent, at concrete
    snapshots, with target ["B"] and clock 50.  A response object of the
    client whose [expires_at] is not set reads [None], which is not [0]:
    the scan of [main] raises [TypeError] and the cycle backs off 10
    seconds, the monitoring loop logs the error and raises it; neither
    takes the non-expiring branch.  A dict entry without the key, and an
    entry holding the number [0], do take it. *)
Theorem unset_expiry_is_not_never :
  (forall n,
     get_expires_at (unset n) = PyOther
     /\ is_never (unset n) = false
     /\ is_never (unnumbered n) = true
     /\ is_never (numbered n 0) = true)
  /\ main_iteration (steady_daemon [unset "A"]) "B" 1 (mkWorld 50 0 0) =
     (Val Continue, mkWorld 60 1 0,
      [EvInfo MsgEnteringCycle; EvPs; EvError (ErrOccurred TypeError);
       EvInfo MsgRetrying; EvSleep 10])
  /\ monitor_for_other_models (steady_daemon [unset "A"]) "B" 1
       (mkWorld 50 0 0) =
     (Exn TypeError, mkWorld 50 1 0,
      [EvPs; EvError (ErrMonitoring TypeError)])
  /\ main_iteration (steady_daemon [unnumbered "A"]) "B" 1 (mkWorld 50 0 0) =
     (Val Continue, mkWorld 115 1 0, never_cycle)
  /\ main_iteration (steady_daemon [numbered "A" 0]) "B" 1 (mkWorld 50 0 0) =
     (Val Continue, mkWorld 115 1 0, never_cycle).
Proof.
  split; [intros n; repeat split; reflexivity|].
  repeat split; vm_compute; reflexivity.
Qed.

(** ** The target alone, the target among others *)




Section Target.

Variable daemon : Daemon.
Variable T : string.







End Target.




(** ** Other models that expire *)

Section Expiring.

Variable daemon : Daemon.
Variable T : string.



End Expiring.



(** ** Malformed entries *)

Section Malformed.

Variable daemon : Daemon.
Variable T : string.


End Malformed.



(** ** The buffer of the unload wait *)

(** C1: the two waits at concrete snapshots.  With target ["B"], clock 50
    and one other model expiring at 100, [main] waits 50 seconds, without
    the 5-second buffer (the claim gives 55).  With two other models
    expiring at 100 the monitoring loop waits 60 seconds, one buffer for
    each of them (the claim gives 55); with one such model it waits 55. *)
Theorem unload_wait_buffer_at_inputs :
  main_iteration (steady_daemon [numbered "A" 100]) "B" 1 (mkWorld 50 0 0) =
    (Val Continue, mkWorld 105 2 0,
     [EvInfo MsgEnteringCycle; EvPs; EvInfo (MsgOtherWaiting 100);
      EvInfo (MsgWaiting 50); EvSleep 50; EvPs;
      EvInfo (MsgStillLoaded ["A"%string]);
      EvInfo MsgCycleComplete; EvSleep CYCLE_INTERVAL])
  /\ Z.max 0 (max_of (expiring_timestamps 50 [numbered "A" 100]) + 5 - 50) = 55
  /\ monitor_step (steady_daemon [numbered "A" 100; numbered "C" 100]) "B"
       (mkWorld 50 0 0) =
    (Val None, mkWorld 110 1 0,
     [EvPs; EvInfo (MsgOtherWaiting 110); EvInfo (MsgWaiting 60); EvSleep 60])
  /\ Z.max 0 (max_of (expiring_timestamps 50
                        [numbered "A" 100; numbered "C" 100]) + 5 - 50) = 55
  /\ monitor_step (steady_daemon [numbered "A" 100]) "B" (mkWorld 50 0 0) =
    (Val None, mkWorld 105 1 0,
     [EvPs; EvInfo (MsgOtherWaiting 105); EvInfo (MsgWaiting 55); EvSleep 55]).
Proof. repeat split; vm_compute; reflexivity. Qed.

(** ** The failure boundary *)

Lemma main_latest_pure (models : list Model) (latest : Z) (w : World) :
  exists r, main_latest models latest w = (r, w, []) /\ settled r.
Proof.
  revert latest. induction models as [|m rest IH]; intros latest; simpl.
  - exists (Val latest). split; [reflexivity|exact I].
  - destruct (py_eq_zero (get_expires_at m)); [apply IH|].
    unfold bind, getitem_name, as_number, time_time, ret, raise.
    destruct (m_name m) as [n|].
    + destruct (timestamp_or_self (get_expires_at m)) as [x|ts|].
      * destruct (clock w <? x).
        -- destruct (IH (Z.max latest x)) as (r & E & Hr).
           rewrite E. exists r. split; [reflexivity|assumption].
        -- destruct (IH latest) as (r & E & Hr).
           rewrite E. exists r. split; [reflexivity|assumption].
      * exists (Exn TypeError). split; reflexivity.
      * exists (Exn TypeError). split; reflexivity.
    + exists (Exn (KeyError "name")). split; reflexivity.
Qed.

Lemma monitor_latest_pure (models : list Model) (latest : Z) (w : World) :
  exists r, monitor_latest models latest w = (r, w, []) /\ settled r.
Proof.
  revert latest. induction models as [|m rest IH]; intros latest; simpl.
  - exists (Val latest). split; [reflexivity|exact I].
  - unfold bind, getitem_name, as_number, time_time, ret, raise.
    destruct (py_eq_zero (get_expires_at m)).
    + destruct (m_name m) as [n|].
      * destruct (IH latest) as (r & E & Hr).
        rewrite E. exists r. split; [reflexivity|assumption].
      * exists (Exn (KeyError "name")). split; reflexivity.
    + destruct (m_name m) as [n|].
      * destruct (timestamp_or_self (get_expires_at m)) as [x|ts|].
        -- destruct (clock w <? x).
           ++ destruct (IH (Z.max latest x + 5)) as (r & E & Hr).
              rewrite E. exists r. split; [reflexivity|assumption].
           ++ destruct (IH latest) as (r & E & Hr).
              rewrite E. exists r. split; [reflexivity|assumption].
        -- exists (Exn TypeError). split; reflexivity.
        -- exists (Exn TypeError). split; reflexivity.
      * exists (Exn (KeyError "name")). split; reflexivity.
Qed.

Lemma wait_for_unload_quiet (t : Z) (w : World) :
  exists w' evs,
    wait_for_unload (PyNum t) w = (Val tt, w', evs)
    /\ ps_calls w' = ps_calls w
    /\ generate_calls w' = generate_calls w
    /\ count_generate evs = 0%nat.
Proof.
  destruct (Z_lt_le_dec (clock w) t) as [H|H].
  - rewrite (wait_for_unload_ahead w t H).
    eexists; eexists. repeat split; reflexivity.
  - rewrite (wait_for_unload_past w t H).
    eexists; eexists. repeat split; reflexivity.
Qed.

Lemma count_generate_app (l1 l2 : list Event) :
  count_generate (l1 ++ l2) = (count_generate l1 + count_generate l2)%nat.
Proof.
  unfold count_generate. rewrite filter_app, length_app. reflexivity.
Qed.

Lemma probes_ok_empty (daemon : Daemon) (a : nat) : probes_ok daemon a a.
Proof. intros i Hi. lia. Qed.

Lemma probes_ok_one (daemon : Daemon) (a : nat) (response : Response) :
  ps daemon a = Returns response -> probes_ok daemon a (S a).
Proof.
  intros H i Hi. assert (i = a) by lia. subst i. eauto.
Qed.

Lemma probes_ok_join (daemon : Daemon) (a b c : nat) :
  probes_ok daemon a b -> probes_ok daemon b c -> probes_ok daemon a c.
Proof.
  intros H1 H2 i Hi.
  destruct (Nat.lt_ge_cases i b); [apply H1|apply H2]; lia.
Qed.

Lemma probes_ok_not_raised (daemon : Daemon) (a b i : nat) (e : exn) :
  probes_ok daemon a b -> (a <= i < b)%nat -> ps daemon i = Raises e -> False.
Proof.
  intros H Hi E. destruct (H i Hi) as (response & E'). congruence.
Qed.

Ltac unfold_cycle_in H :=
  unfold main_iteration, main_cycle, monitor_for_other_models, try_except,
    except_Exception, bind, ret, raise, logger_info, logger_error, emit,
    asyncio_sleep in H.

Section Boundary.

Variable daemon : Daemon.
Variable T : string.

(** A turn of the monitoring loop makes one probe and no load; when the
    probe raises, the turn raises the same exception at once. *)
Lemma monitor_step_spec (w : World) (r : Result (option bool)) (w' : World)
  (evs : list Event) :
  monitor_step daemon T w = (r, w', evs) ->
  ps_calls w' = S (ps_calls w)
  /\ generate_calls w' = generate_calls w
  /\ r <> OutOfFuel
  /\ match ps daemon (ps_calls w) with
     | Returns _ => count_generate evs = 0%nat /\ settled r
     | Raises e => r = Exn e /\ evs = probe_failure e
     end.
Proof.
  intros H. unfold monitor_step in H. unfold_cycle_in H.
  destruct (ps daemon (ps_calls w)) as [response|e] eqn:Hps.
  - erewrite check_loaded_models_returns in H by eassumption.
    rewrite model_names_of_run in H.
    destruct (has_names (get_models response)).
    + destruct (py_in T (names_of (get_models response))).
      * destruct (1 <? List.length (names_of (get_models response)))%nat;
          inversion H; subst; repeat split; discriminate.
      * destruct (get_models response) as [|m rest].
        -- inversion H; subst; repeat split; discriminate.
        -- destruct (monitor_latest_pure (m :: rest) 0 (after_ps w))
             as (rl & El & Hrl).
           rewrite El in H.
           destruct rl as [latest|e|]; [| |contradiction].
           ++ destruct (0 <? latest).
              ** destruct (wait_for_unload_quiet latest (after_ps w))
                   as (w1 & evs1 & Ew & Hp & Hg & Hc).
                 rewrite Ew in H.
                 inversion H; subst; repeat split;
                   try assumption; try discriminate.
                 rewrite app_nil_r. exact Hc.
              ** inversion H; subst; repeat split; discriminate.
           ++ inversion H; subst; repeat split;
                try assumption; discriminate.
    + inversion H; subst; repeat split; discriminate.
  - erewrite check_loaded_models_raises in H by eassumption.
    destruct e; inversion H; subst; repeat split; discriminate.
Qed.

(** The monitoring loop makes no load; either all its probes returned, or
    its last probe raised and the loop raised the same exception. *)
Lemma monitor_loop_inv (fuel : nat) (w : World) (r : Result bool)
  (w' : World) (evs : list Event) :
  monitor_loop daemon T fuel w = (r, w', evs) ->
  generate_calls w' = generate_calls w
  /\ ((ran_clean daemon w r w' /\ count_generate evs = 0%nat)
      \/ exists e, probe_failed daemon w r w' evs e []).
Proof.
  revert w r w' evs. induction fuel as [|fuel IH]; intros w r w' evs H.
  - simpl in H. unfold out_of_fuel in H. inversion H; subst.
    split; [reflexivity|]. left. split; [|reflexivity].
    repeat split; auto using probes_ok_empty.
  - change (monitor_loop daemon T (S fuel) w)
      with (bind (monitor_step daemon T)
              (fun r => match r with
                        | Some b => ret b
                        | None => monitor_loop daemon T fuel
                        end) w) in H.
    unfold bind in H.
    destruct (monitor_step daemon T w) as [[r1 w1] evs1] eqn:E1.
    destruct (monitor_step_spec _ _ _ _ E1) as (Hp1 & Hg1 & Hf1 & Hcase).
    destruct r1 as [[b|]|e|]; [| | |congruence].
    + (* return b *)
      unfold ret in H. inversion H; subst.
      split; [assumption|]. left.
      destruct (ps daemon (ps_calls w)) as [response|e] eqn:Hps;
        [|destruct Hcase; discriminate].
      destruct Hcase as [Hc _]. rewrite app_nil_r.
      split; [|assumption].
      unfold ran_clean. rewrite Hp1.
      repeat split; eauto using probes_ok_one.
      right. exact I.
    + (* next turn *)
      destruct (monitor_loop daemon T fuel w1) as [[r2 w2] evs2] eqn:E2.
      inversion H; subst.
      destruct (IH _ _ _ _ E2) as (Hg2 & Hcase2).
      destruct (ps daemon (ps_calls w)) as [response|e] eqn:Hps;
        [|destruct Hcase; discriminate].
      destruct Hcase as [Hc _].
      assert (Hone : probes_ok daemon (ps_calls w) (ps_calls w1)).
      { rewrite Hp1. eauto using probes_ok_one. }
      split; [congruence|].
      destruct Hcase2 as [[(Hle & Hok & Hgen & Hr) Hc2]|(e & Hfail)].
      * left. split.
        -- repeat split.
           ++ lia.
           ++ eauto using probes_ok_join.
           ++ left. congruence.
           ++ assumption.
        -- rewrite count_generate_app, Hc, Hc2. reflexivity.
      * right. exists e.
        destruct Hfail as (Hr & Hlt & Hok & Hlast & Hgen & pre & Hevs & Hpre).
        repeat split.
        -- assumption.
        -- lia.
        -- eapply probes_ok_join; [exact Hone|exact Hok].
        -- assumption.
        -- congruence.
        -- exists (evs1 ++ pre). split.
           ++ rewrite Hevs. rewrite app_assoc. reflexivity.
           ++ rewrite count_generate_app, Hc, Hpre. reflexivity.
    + (* the turn raised *)
      inversion H; subst. split; [assumption|].
      destruct (ps daemon (ps_calls w)) as [response|e'] eqn:Hps.
      * destruct Hcase as [Hc Hs]. left. split; [|assumption].
        unfold ran_clean. rewrite Hp1.
        repeat split; eauto using probes_ok_one.
      * destruct Hcase as [He Hevs]. inversion He; subst e'.
        right. exists e. unfold probe_failed. rewrite Hp1. repeat split.
        -- lia.
        -- simpl. apply probes_ok_empty.
        -- simpl. assumption.
        -- assumption.
        -- exists []. split; [|reflexivity].
           rewrite Hevs. simpl. rewrite app_nil_r. reflexivity.
Qed.

Lemma load_model_cases (wm : World) (r : Result unit) (w' : World)
  (evs : list Event) :
  load_model daemon T wm = (r, w', evs) ->
  w' = after_generate wm
  /\ ((exists reply,
         generate daemon (generate_calls wm) = Returns reply
         /\ r = Val tt
         /\ evs = [EvGenerate T (-1); EvInfo (MsgLoaded T)])
      \/ (exists e,
            generate daemon (generate_calls wm) = Raises e
            /\ r = Exn e
            /\ evs = load_failure T e)).
Proof.
  intros H.
  destruct (generate daemon (generate_calls wm)) as [reply|e] eqn:G.
  - rewrite (load_model_returns _ _ _ _ G) in H. inversion H; subst.
    split; [reflexivity|]. left. eauto.
  - rewrite (load_model_raises _ _ _ _ G) in H. inversion H; subst.
    split; [reflexivity|]. right. exists e. auto.
Qed.

Ltac list_eq :=
  simpl; repeat rewrite <- app_assoc; simpl; repeat rewrite app_nil_r;
  reflexivity.

Ltac no_generate :=
  repeat rewrite count_generate_app;
  repeat match goal with
         | Hc : count_generate _ = 0%nat |- _ => rewrite Hc
         end;
  reflexivity.

Ltac clean_run :=
  left; unfold ran_clean; simpl in *;
  repeat split;
  first [ lia
        | solve [eauto using probes_ok_one, probes_ok_join]
        | left; solve [lia | congruence]
        | right; solve [exact I | reflexivity | assumption]
        | right; split; [lia|];
          match goal with
          | G : generate _ _ = Returns ?reply |- _ =>
              exists reply; congruence
          end ].

Ltac load_failed_run e pre :=
  right; right; exists e; unfold load_failed; simpl in *;
  repeat split;
  first [ lia
        | solve [eauto using probes_ok_one, probes_ok_join]
        | congruence
        | exists pre; split; [list_eq | no_generate] ].

Ltac probe_failed_run e mid :=
  right; left; exists e, mid; unfold probe_failed; simpl in *.

Lemma main_cycle_run (fuel : nat) (w : World) (r : Result unit) (w' : World)
  (evs : list Event) :
  main_cycle daemon T fuel w = (r, w', evs) ->
  (exists rest, evs = EvInfo MsgEnteringCycle :: EvPs :: rest)
  /\ (ran_clean daemon w r w'
      \/ (exists e mid,
            probe_failed daemon w r w' evs e mid
            /\ (mid = []
                \/ (is_Exception e = true
                    /\ mid = [EvError (ErrMonitoring e)])))
      \/ (exists e, load_failed daemon T w r w' evs e)).
Proof.
  intros H. unfold_cycle_in H.
  destruct (ps daemon (ps_calls w)) as [response|e] eqn:Hps.
  2:{ erewrite check_loaded_models_raises in H by eassumption.
      simpl in H. inversion H; subst.
      split; [eexists; reflexivity|].
      right; left. exists e, []. split; [|left; reflexivity].
      unfold probe_failed; simpl. repeat split; auto using probes_ok_empty.
      exists [EvInfo MsgEnteringCycle]. split; [|reflexivity].
      rewrite app_nil_r. reflexivity. }
  erewrite check_loaded_models_returns in H by eassumption.
  rewrite model_names_of_run in H.
  destruct (has_names (get_models response)) eqn:Hnames.
  2:{ simpl in H. inversion H; subst.
      split; [eexists; reflexivity|]. clean_run. }
  destruct (py_in T (names_of (get_models response))) eqn:Hin.
  - (* the target is loaded: monitoring *)
    destruct (monitor_loop daemon T fuel (after_ps w)) as [[rm wm] evsm] eqn:Em.
    destruct (monitor_loop_inv _ _ _ _ _ Em) as (Hgm & Hcase).
    destruct rm as [[|]|e|].
    + simpl in H. inversion H; subst.
      split; [eexists; reflexivity|].
      destruct Hcase as [[(Hle & Hok & Hgen & Hr) Hc]|(e & He & _)];
        [|discriminate].
      clean_run.
    + simpl in H.
      destruct (load_model daemon T wm) as [[rl wl] evsl] eqn:El.
      destruct (load_model_cases _ _ _ _ El) as (Hwl & Hload).
      destruct Hcase as [[(Hle & Hok & Hgen & Hr) Hc]|(e & He & _)];
        [|discriminate].
      destruct Hload as [(reply & G & Hrl & Hevsl)|(e & G & Hrl & Hevsl)];
        subst rl evsl wl; simpl in H; inversion H; subst.
      * split; [eexists; reflexivity|]. clean_run.
      * split; [eexists; reflexivity|].
        load_failed_run e
          ([EvInfo MsgEnteringCycle; EvPs; EvInfo (MsgAlreadyLoaded T)]
           ++ evsm ++ [EvInfo (MsgNoModelsNow T)]).
    + (* the monitoring loop raised *)
      destruct Hcase as [[(Hle & Hok & Hgen & Hr) Hc]|(e' & Hfail)].
      * destruct Hr as [Hr|Hr]; [discriminate|]. simpl in Hr.
        simpl in H. rewrite Hr in H. simpl in H. inversion H; subst.
        split; [eexists; reflexivity|]. clean_run.
      * destruct Hfail as (He & Hlt & Hok & Hlast & Hgen & pre & Hevs & Hpre).
        inversion He; subst e'. subst evsm.
        split.
        -- simpl in H. destruct (is_Exception e); simpl in H;
             inversion H; subst; eexists; reflexivity.
        -- destruct (is_Exception e) eqn:Hexc; simpl in H; rewrite ?Hexc in H;
             simpl in H; inversion H; subst.
           ++ probe_failed_run e [EvError (ErrMonitoring e)].
              split; [|right; split; [assumption|reflexivity]].
              repeat split;
                first [ lia | assumption | congruence
                      | solve [eauto using probes_ok_one, probes_ok_join]
                      | idtac ].
              rewrite Hexc.
              exists ([EvInfo MsgEnteringCycle; EvPs;
                       EvInfo (MsgAlreadyLoaded T)] ++ pre).
              split; [list_eq | no_generate].
           ++ probe_failed_run e (@nil Event).
              split; [|left; reflexivity].
              repeat split;
                first [ lia | assumption | congruence
                      | solve [eauto using probes_ok_one, probes_ok_join]
                      | idtac ].
              rewrite Hexc.
              exists ([EvInfo MsgEnteringCycle; EvPs;
                       EvInfo (MsgAlreadyLoaded T)] ++ pre).
              split; [list_eq | no_generate].
    + simpl in H. inversion H; subst.
      split; [eexists; reflexivity|].
      destruct Hcase as [[(Hle & Hok & Hgen & Hr) Hc]|(e & He & _)];
        [|discriminate].
      clean_run.
  - (* the target is not loaded *)
    destruct (get_models response) as [|m rest] eqn:Hm.
    + simpl in H.
      destruct (load_model daemon T (after_ps w)) as [[rl wl] evsl] eqn:El.
      destruct (load_model_cases _ _ _ _ El) as (Hwl & Hload).
      destruct Hload as [(reply & G & Hrl & Hevsl)|(e & G & Hrl & Hevsl)];
        subst rl evsl wl; simpl in H; inversion H; subst.
      * split; [eexists; reflexivity|]. clean_run.
      * split; [eexists; reflexivity|].
        load_failed_run e
          [EvInfo MsgEnteringCycle; EvPs; EvInfo (MsgNoModels T)].
    + destruct (main_latest_pure (m :: rest) 0 (after_ps w))
        as (rl & Elat & Hrl).
      rewrite Elat in H.
      destruct rl as [latest|e|]; [| |contradiction].
      * destruct (0 <? latest).
        -- destruct (wait_for_unload_quiet latest (after_ps w))
             as (w1 & evs1 & Ew & Hp & Hg & Hc).
           rewrite Ew in H. simpl in H. simpl in Hp, Hg.
           destruct (ps daemon (ps_calls w1)) as [new_response|e] eqn:Hps2.
           ++ erewrite check_loaded_models_returns in H by eassumption.
              simpl in H. rewrite Hp in Hps2.
              destruct (get_models new_response) as [|m' rest'] eqn:Hnew.
              ** destruct (load_model daemon T (after_ps w1))
                   as [[rl wl] evsl] eqn:El.
                 destruct (load_model_cases _ _ _ _ El) as (Hwl & Hload).
                 destruct Hload
                   as [(reply & G & Hrl' & Hevsl)|(e & G & Hrl' & Hevsl)];
                   subst rl evsl wl; simpl in H; inversion H; subst;
                   simpl in G; rewrite Hg in G.
                 --- split; [eexists; reflexivity|].
                     left; unfold ran_clean; simpl; rewrite Hp, Hg.
                     repeat split;
                       first [ lia
                             | solve [eauto using probes_ok_one,
                                        probes_ok_join]
                             | right; solve [exact I]
                             | right; split; [lia|]; eauto ].
                 --- split; [eexists; reflexivity|].
                     right; right; exists e; unfold load_failed; simpl;
                       rewrite Hp, Hg.
                     repeat split;
                       first [ lia | assumption
                             | solve [eauto using probes_ok_one,
                                        probes_ok_join]
                             | idtac ].
                     exists ([EvInfo MsgEnteringCycle; EvPs;
                              EvInfo (MsgOtherWaiting latest)] ++ evs1
                             ++ [EvPs; EvInfo (MsgNoModelsNow T)]).
                     split; [list_eq | no_generate].
              ** rewrite model_names_of_run in H.
                 destruct (has_names (m' :: rest')); simpl in H;
                   inversion H; subst;
                   (split; [eexists; reflexivity|]);
                   left; unfold ran_clean; simpl; rewrite Hp, Hg;
                   repeat split;
                     first [ lia
                           | solve [eauto using probes_ok_one, probes_ok_join]
                           | left; reflexivity
                           | right; solve [exact I | reflexivity] ].
           ++ erewrite check_loaded_models_raises in H by eassumption.
              simpl in H. inversion H; subst.
              split; [eexists; reflexivity|].
              right; left; exists e, []. split; [|left; reflexivity].
              unfold probe_failed; simpl; rewrite Hp, Hg.
              repeat split;
                first [ lia | rewrite <- Hp; assumption
                      | solve [eauto using probes_ok_one, probes_ok_join]
                      | idtac ].
              exists ([EvInfo MsgEnteringCycle; EvPs;
                       EvInfo (MsgOtherWaiting latest)] ++ evs1).
              split; [list_eq | no_generate].
        -- simpl in H. inversion H; subst.
           split; [eexists; reflexivity|]. clean_run.
      * simpl in H. inversion H; subst.
        split; [eexists; reflexivity|]. clean_run.
Qed.

Lemma main_iteration_cases (fuel : nat) (w : World) :
  main_iteration daemon T fuel w =
  match main_cycle daemon T fuel w with
  | (Val _, w1, t1) => (Val Continue, w1, t1)
  | (Exn e, w1, t1) =>
      if is_Exception e
      then (Val Continue, after_sleep 10 w1, t1 ++ backoff e)
      else (Val Break, w1, t1 ++ [EvInfo MsgStopped])
  | (OutOfFuel, w1, t1) => (OutOfFuel, w1, t1)
  end.
Proof.
  unfold main_iteration, try_except, bind.
  destruct (main_cycle daemon T fuel w) as [[[u|e|] w1] t1].
  - unfold ret. rewrite app_nil_r. reflexivity.
  - destruct e; reflexivity.
  - reflexivity.
Qed.

Lemma count_generate_probe_failure (e : exn) :
  count_generate (probe_failure e) = 0%nat.
Proof. unfold probe_failure. destruct (is_Exception e); reflexivity. Qed.

Lemma main_iteration_boundary (fuel : nat) (w : World) (r : Result LoopCtl)
  (w' : World) (evs : list Event) :
  main_iteration daemon T fuel w = (r, w', evs) ->
  (forall e, r <> Exn e)
  /\ (exists rest, evs = EvInfo MsgEnteringCycle :: EvPs :: rest)
  /\ (generate_calls w' <= S (generate_calls w))%nat
  /\ (forall i e,
        (ps_calls w <= i < ps_calls w')%nat ->
        ps daemon i = Raises e ->
        is_Exception e = true ->
        S i = ps_calls w'
        /\ generate_calls w' = generate_calls w
        /\ count_generate evs = 0%nat
        /\ r = Val Continue
        /\ exists pre mid,
             evs = pre ++ [EvPs; EvError (ErrChecking e)] ++ mid ++ backoff e
             /\ (mid = [] \/ mid = [EvError (ErrMonitoring e)]))
  /\ (forall e,
        generate_calls w' = S (generate_calls w) ->
        generate daemon (generate_calls w) = Raises e ->
        is_Exception e = true ->
        r = Val Continue
        /\ exists pre,
             evs = pre ++ [EvGenerate T (-1); EvError (ErrLoading T e)]
                   ++ backoff e
             /\ count_generate pre = 0%nat)
  /\ (r = Val Break ->
      (exists i, (ps_calls w <= i < ps_calls w')%nat
                 /\ ps daemon i = Raises KeyboardInterrupt)
      \/ (generate_calls w' = S (generate_calls w)
          /\ generate daemon (generate_calls w) = Raises KeyboardInterrupt)).
Proof.
  intros H. rewrite main_iteration_cases in H.
  destruct (main_cycle daemon T fuel w) as [[rc wc] evc] eqn:Ec.
  destruct (main_cycle_run _ _ _ _ _ Ec) as ((rest & Hrest) & Hclass).
  destruct Hclass as [Hclean|[(e & mid & Hfail & Hmid)|(e & Hfail)]].
  - (* every call returned *)
    destruct Hclean as (Hle & Hok & Hgen & Hr).
    assert (Hshape : r <> Val Break /\ (forall e, r <> Exn e)
                     /\ ps_calls w' = ps_calls wc
                     /\ generate_calls w' = generate_calls wc
                     /\ exists rest', evs = EvInfo MsgEnteringCycle :: EvPs :: rest').
    { destruct rc as [u|e|].
      - inversion H; subst. repeat split; try discriminate. eauto.
      - destruct Hr as [Hr|Hr]; [discriminate|]. simpl in Hr.
        rewrite Hr in H. inversion H; subst.
        repeat split; try discriminate. simpl. eauto.
      - inversion H; subst. repeat split; try discriminate. eauto. }
    destruct Hshape as (Hnb & Hne & Hp & Hg & Hev).
    rewrite Hp, Hg.
    split; [assumption|]. split; [assumption|].
    split; [destruct Hgen as [Hgen|[Hgen _]]; lia|].
    split; [|split].
    + intros i e0 Hi Hraise _. exfalso.
      exact (probes_ok_not_raised _ _ _ _ _ Hok Hi Hraise).
    + intros e0 Hs Hraise _. exfalso.
      destruct Hgen as [Hgen|[_ (reply & Hreply)]]; [lia|congruence].
    + intros Hb. contradiction.
  - (* the last probe raised *)
    destruct Hfail as (Hrc & Hlt & Hok & Hlast & Hgen & pre & Hevs & Hpre).
    subst rc.
    destruct (is_Exception e) eqn:Hexc;
      injection H as Hr Hw He; subst r w' evs; simpl.
    + split; [discriminate|].
      split; [rewrite Hrest; simpl; eauto|].
      rewrite Hevs.
      split; [lia|].
      split; [|split].
      * intros i e0 Hi Hraise He0.
        assert (i = pred (ps_calls wc)).
        { destruct (Nat.eq_dec i (pred (ps_calls wc))) as [|Hneq];
            [assumption|].
          exfalso. apply (probes_ok_not_raised _ _ _ i e0 Hok); [lia|].
          assumption. }
        subst i. rewrite Hlast in Hraise. inversion Hraise; subst e0.
        repeat split; try (assumption || lia).
        -- repeat rewrite count_generate_app.
           rewrite Hpre, count_generate_probe_failure.
           destruct Hmid as [->|[_ ->]]; reflexivity.
        -- exists pre, mid. split.
           ++ unfold probe_failure. rewrite Hexc.
              repeat rewrite <- app_assoc. reflexivity.
           ++ destruct Hmid as [->|[_ ->]]; auto.
      * intros e0 Hs _ _. lia.
      * discriminate.
    + split; [discriminate|].
      split; [rewrite Hrest; simpl; eauto|].
      split; [lia|].
      split; [|split].
      * intros i e0 Hi Hraise He0. exfalso.
        assert (i = pred (ps_calls wc)).
        { destruct (Nat.eq_dec i (pred (ps_calls wc))) as [|Hneq];
            [assumption|].
          exfalso. apply (probes_ok_not_raised _ _ _ i e0 Hok); [lia|].
          assumption. }
        subst i. rewrite Hlast in Hraise. inversion Hraise; subst e0.
        congruence.
      * intros e0 Hs _ _. lia.
      * intros _. left. exists (pred (ps_calls wc)).
        split; [lia|]. destruct e; try discriminate. assumption.
  - (* the load raised *)
    destruct Hfail as (Hrc & Hle & Hok & Hgen & Hraised & pre & Hevs & Hpre).
    subst rc.
    destruct (is_Exception e) eqn:Hexc;
      injection H as Hr Hw He; subst r w' evs; simpl.
    + split; [discriminate|].
      split; [rewrite Hrest; simpl; eauto|].
      rewrite Hevs.
      split; [lia|].
      split; [|split].
      * intros i e0 Hi Hraise _. exfalso.
        exact (probes_ok_not_raised _ _ _ _ _ Hok Hi Hraise).
      * intros e0 _ Hraise _.
        rewrite Hraised in Hraise. inversion Hraise; subst e0.
        split; [reflexivity|]. exists pre. split; [|assumption].
        unfold load_failure. rewrite Hexc.
        repeat rewrite <- app_assoc. reflexivity.
      * discriminate.
    + split; [discriminate|].
      split; [rewrite Hrest; simpl; eauto|].
      split; [lia|].
      split; [|split].
      * intros i e0 Hi Hraise _. exfalso.
        exact (probes_ok_not_raised _ _ _ _ _ Hok Hi Hraise).
      * intros e0 _ Hraise He0.
        rewrite Hraised in Hraise. inversion Hraise; subst e0. congruence.
      * intros _. right. split; [assumption|].
        destruct e; try discriminate. assumption.
Qed.

(** With no interrupt ever delivered, the loop of [main] does not end. *)
Lemma main_loop_runs_on (fuel : nat) :
  (forall i, ps daemon i <> Raises KeyboardInterrupt) ->
  (forall j, generate daemon j <> Raises KeyboardInterrupt) ->
  forall cycles w, fst (fst (main_loop daemon T cycles fuel w)) = OutOfFuel.
Proof.
  intros Hps Hgen cycles.
  induction cycles as [|cycles IH]; intros w; [reflexivity|].
  change (main_loop daemon T (S cycles) fuel w)
    with (bind (main_iteration daemon T fuel)
            (fun ctl => match ctl with
                        | Break => ret tt
                        | Continue => main_loop daemon T cycles fuel
                        end) w).
  unfold bind.
  destruct (main_iteration daemon T fuel w) as [[r w1] evs1] eqn:E.
  destruct (main_iteration_boundary _ _ _ _ _ E)
    as (Hne & _ & _ & _ & _ & Hbreak).
  destruct r as [[|]|e|].
  - specialize (IH w1).
    destruct (main_loop daemon T cycles fuel w1) as [[r2 w2] evs2].
    exact IH.
  - exfalso.
    destruct (Hbreak eq_refl) as [(i & _ & Hi)|[_ Hj]];
      [exact (Hps _ Hi)|exact (Hgen _ Hj)].
  - exfalso. exact (Hne e eq_refl).
  - reflexivity.
Qed.

End Boundary.

(** * Further properties of the code *)

(** ** The waiter *)

(** [wait_for_unload] brings the clock to the given time when that time
    is still ahead, and does nothing when it is past; a number and a
    datetime of the same timestamp are waited for alike; no daemon call is
    made.  A value that is neither raises [TypeError] without sleeping. *)
Theorem wait_for_unload_reaches (v : PyVal) (t : Z) (w : World) :
  timestamp_or_self v = PyNum t ->
  wait_for_unload v w =
    (Val tt,
     mkWorld (Z.max (clock w) t) (ps_calls w) (generate_calls w),
     if clock w <? t
     then [EvInfo (MsgWaiting (t - clock w)); EvSleep (t - clock w)]
     else [])
  /\ wait_for_unload PyOther w = (Exn TypeError, w, []).
Proof.
  intros Hv. split; [|reflexivity].
  unfold wait_for_unload, bind, time_time. rewrite Hv. simpl.
  destruct (clock w <? t) eqn:Hc.
  - apply Z.ltb_lt in Hc.
    replace (Z.max 0 (t - clock w)) with (t - clock w) by lia.
    replace (0 <? t - clock w) with true by (symmetry; apply Z.ltb_lt; lia).
    simpl. unfold after_sleep. simpl.
    do 2 f_equal. f_equal. lia.
  - apply Z.ltb_ge in Hc.
    replace (Z.max 0 (t - clock w)) with 0 by lia.
    simpl. destruct w as [c p g]. simpl in *.
    do 3 f_equal. lia.
Qed.

Lemma wait_for_unload_reaches_witness :
  timestamp_or_self (PyDatetime 100) = PyNum 100 /\
  wait_for_unload (PyDatetime 100) (mkWorld 40 2 0) =
    (Val tt, mkWorld 100 2 0, [EvInfo (MsgWaiting 60); EvSleep 60]).
Proof.
  split; [reflexivity|].
  exact (proj1 (wait_for_unload_reaches (PyDatetime 100) 100
                  (mkWorld 40 2 0) eq_refl)).
Defined.

(** ** The two scans *)










(** ** Entries that are not as expected *)

(** When the target is absent and some entry holds under ["expires_at"]
    a value that is neither a number nor a datetime ([None], a string),
    the scan raises [TypeError]: the cycle of [main] is logged as failed
    and retried after the backoff, and the monitoring loop logs the error
    and raises it; no wait and no load is made. *)
Theorem odd_expiry_fails_scan (daemon : Daemon) (T : string) (fuel : nat)
  (w : World) (response : Response) :
  ps daemon (ps_calls w) = Returns response ->
  others_only T (get_models response) = true ->
  typed_expiry (get_models response) = false ->
  main_iteration daemon T fuel w =
    (Val Continue, after_sleep 10 (after_ps w),
     [EvInfo MsgEnteringCycle; EvPs] ++ backoff TypeError)
  /\ monitor_for_other_models daemon T (S fuel) w =
    (Exn TypeError, after_ps w, [EvPs; EvError (ErrMonitoring TypeError)]).
Proof.
  intros Hps Ho Hty.
  destruct (others_only_inv _ _ Ho) as (Hnames & Hin & m & rest & Hm).
  split.
  - unfold_cycle.
    erewrite check_loaded_models_returns by eassumption.
    rewrite model_names_of_ok by assumption.
    rewrite Hin. rewrite Hm in *.
    rewrite main_latest_untyped by assumption.
    reflexivity.
  - unfold monitor_for_other_models, try_except.
    change (monitor_loop daemon T (S fuel) w)
      with (bind (monitor_step daemon T)
              (fun r => match r with
                        | Some b => ret b
                        | None => monitor_loop daemon T fuel
                        end) w).
    unfold monitor_step. unfold_cycle.
    erewrite check_loaded_models_returns by eassumption.
    rewrite model_names_of_ok by assumption.
    rewrite Hin. rewrite Hm in *.
    rewrite monitor_latest_untyped by assumption.
    reflexivity.
Qed.

Lemma odd_expiry_fails_scan_witness :
  let models := [numbered "A" 100; mkModel Object (Some "C"%string) (Some PyOther)] in
  let daemon := steady_daemon models in
  let w := mkWorld 50 0 0 in
  ps daemon (ps_calls w) = Returns (mkResponse (Some models)) /\
  others_only "B" models = true /\
  typed_expiry models = false /\
  main_iteration daemon "B" 1 w =
    (Val Continue, mkWorld 60 1 0,
     [EvInfo MsgEnteringCycle; EvPs; EvError (ErrOccurred TypeError);
      EvInfo MsgRetrying; EvSleep 10]).
Proof.
  do 3 (split; [reflexivity|]).
  exact (proj1 (odd_expiry_fails_scan
                  (steady_daemon
                     [numbered "A" 100;
                      mkModel Object (Some "C"%string) (Some PyOther)])
                  "B" 1 (mkWorld 50 0 0)
                  (mkResponse
                     (Some [numbered "A" 100;
                            mkModel Object (Some "C"%string) (Some PyOther)]))
                  eq_refl eq_refl eq_refl)).
Defined.

Lemma names_other_than_all_target (T : string) (names : list string) :
  forallb (String.eqb T) names = true -> names_other_than T names = [].
Proof.
  induction names as [|n rest IH]; simpl; intros H; [reflexivity|].
  apply andb_prop in H. destruct H as [Hn Hrest].
  apply String.eqb_eq in Hn. subst n.
  rewrite String.eqb_refl. simpl. auto.
Qed.

(** The monitoring loop takes "other models are loaded" from the number
    of entries, not from their names: a snapshot of two or more entries
    that all carry the target's name makes it return [True] at once, with
    an empty list of other models in the log. *)
Theorem repeated_target_counts_as_others (daemon : Daemon) (T : string)
  (fuel : nat) (w : World) (response : Response) :
  ps daemon (ps_calls w) = Returns response ->
  has_names (get_models response) = true ->
  forallb (String.eqb T) (names_of (get_models response)) = true ->
  (2 <= List.length (get_models response))%nat ->
  monitor_for_other_models daemon T (S fuel) w =
    (Val true, after_ps w, [EvPs; EvInfo (MsgOtherDetected [])]).
Proof.
  intros Hps Hnames Hall Hlen.
  unfold monitor_for_other_models, try_except.
  change (monitor_loop daemon T (S fuel) w)
    with (bind (monitor_step daemon T)
            (fun r => match r with
                      | Some b => ret b
                      | None => monitor_loop daemon T fuel
                      end) w).
  unfold monitor_step. unfold_cycle.
  erewrite check_loaded_models_returns by eassumption.
  rewrite model_names_of_ok by assumption.
  rewrite (names_other_than_all_target _ _ Hall).
  assert (Hl : List.length (names_of (get_models response))
               = List.length (get_models response))
    by (unfold names_of; apply length_map).
  destruct (names_of (get_models response)) as [|n [|n' l]] eqn:E;
    simpl in Hl; try lia.
  simpl in Hall. apply andb_prop in Hall. destruct Hall as [Hn _].
  unfold py_in. simpl. rewrite Hn. reflexivity.
Qed.

Lemma repeated_target_counts_as_others_witness :
  let models := [numbered "B" 0; numbered "B" 100] in
  let daemon := steady_daemon models in
  let w := mkWorld 50 0 0 in
  ps daemon (ps_calls w) = Returns (mkResponse (Some models)) /\
  has_names models = true /\
  forallb (String.eqb "B") (names_of models) = true /\
  (2 <= List.length models)%nat /\
  monitor_for_other_models daemon "B" 1 w =
    (Val true, mkWorld 50 1 0, [EvPs; EvInfo (MsgOtherDetected [])]).
Proof.
  do 3 (split; [reflexivity|]). split; [simpl; lia|].
  apply (repeated_target_counts_as_others
           (steady_daemon [numbered "B" 0; numbered "B" 100]) "B" 0
           (mkWorld 50 0 0)
           (mkResponse (Some [numbered "B" 0; numbered "B" 100])));
    reflexivity.
Defined.

(** ** How the monitoring loop ends, and how fast it turns *)

Lemma monitor_latest_deadline (models : list Model) (latest : Z) (w : World)
  (r : Z) (w' : World) (evs : list Event) :
  monitor_latest models latest w = (Val r, w', evs) ->
  r = latest \/ (clock w + 5 < r /\ latest + 5 <= r).
Proof.
  revert latest. induction models as [|m rest IH]; intros latest H.
  - simpl in H. inversion H. left. reflexivity.
  - simpl in H. unfold bind, getitem_name, as_number, time_time, ret, raise in H.
    destruct (py_eq_zero (get_expires_at m)).
    + destruct (m_name m); [|discriminate].
      destruct (monitor_latest rest latest w) as [[r1 w1] e1] eqn:E.
      destruct r1; inversion H; subst. eapply IH; eassumption.
    + destruct (m_name m); [|discriminate].
      destruct (timestamp_or_self (get_expires_at m)) as [x|ts|];
        try discriminate.
      destruct (clock w <? x) eqn:Hc.
      * destruct (monitor_latest rest (Z.max latest x + 5) w)
          as [[r1 w1] e1] eqn:E.
        destruct r1; inversion H; subst.
        apply Z.ltb_lt in Hc. right.
        destruct (IH _ E) as [->|Hr]; lia.
      * destruct (monitor_latest rest latest w) as [[r1 w1] e1] eqn:E.
        destruct r1; inversion H; subst. eapply IH; eassumption.
Qed.

Section Turns.

Variable daemon : Daemon.
Variable T : string.

(** What a turn of the monitoring loop did, by its result. *)
Lemma monitor_step_turn (w : World) (r : Result (option bool)) (w' : World)
  (evs : list Event) :
  monitor_step daemon T w = (r, w', evs) ->
  clock w <= clock w'
  /\ match r with
     | Val None => clock w + 5 < clock w'
     | Val (Some true) =>
         exists response,
           ps daemon (ps_calls w) = Returns response
           /\ has_names (get_models response) = true
           /\ py_in T (names_of (get_models response)) = true
           /\ (1 < List.length (get_models response))%nat
           /\ w' = after_ps w
           /\ evs = [EvPs;
                     EvInfo (MsgOtherDetected
                               (names_other_than T
                                  (names_of (get_models response))))]
     | Val (Some false) =>
         exists response,
           ps daemon (ps_calls w) = Returns response
           /\ get_models response = []
           /\ w' = after_ps w
           /\ evs = [EvPs; EvInfo (MsgNoLongerLoaded T)]
     | _ => True
     end.
Proof.
  intros H. unfold monitor_step in H. unfold_cycle_in H.
  destruct (ps daemon (ps_calls w)) as [response|e] eqn:Hps.
  - erewrite check_loaded_models_returns in H by eassumption.
    rewrite model_names_of_run in H.
    destruct (has_names (get_models response)) eqn:Hnames.
    + destruct (py_in T (names_of (get_models response))) eqn:Hin.
      * destruct (1 <? List.length (names_of (get_models response)))%nat
          eqn:Hlen; inversion H; subst; simpl.
        -- split; [lia|]. exists response. repeat split; try assumption.
           apply Nat.ltb_lt in Hlen. unfold names_of in Hlen.
           rewrite length_map in Hlen. assumption.
        -- unfold MONITOR_INTERVAL. lia.
      * destruct (get_models response) as [|m rest] eqn:Hm.
        -- inversion H; subst; simpl. split; [lia|].
           exists response. repeat split; assumption.
        -- destruct (monitor_latest (m :: rest) 0 (after_ps w))
             as [[rl wl] el] eqn:El.
           destruct (monitor_latest_pure (m :: rest) 0 (after_ps w))
             as (rl' & El' & _).
           rewrite El in El'. inversion El'; subst rl' wl el. clear El'.
           destruct rl as [latest|e|];
             [| inversion H; subst; simpl; split; [lia|exact I]
              | inversion H; subst; simpl; split; [lia|exact I] ].
           destruct (monitor_latest_deadline _ _ _ _ _ _ El) as [Hl|Hl].
           ++ subst latest. simpl in H. inversion H; subst; simpl.
              unfold MONITOR_INTERVAL. lia.
           ++ simpl in Hl. destruct Hl as [Hl Hpos].
              replace (0 <? latest) with true in H
                by (symmetry; apply Z.ltb_lt; lia).
              rewrite (wait_for_unload_ahead (after_ps w) latest) in H
                by (simpl; lia).
              inversion H; subst; simpl. lia.
    + inversion H; subst; simpl. split; [lia|exact I].
  - erewrite check_loaded_models_raises in H by eassumption.
    inversion H; subst; simpl. split; [lia|exact I].
Qed.

Lemma monitor_loop_quiet (fuel : nat) (w : World) (r : Result bool)
  (w' : World) (evs : list Event) :
  monitor_loop daemon T fuel w = (r, w', evs) ->
  generate_calls w' = generate_calls w /\ count_generate evs = 0%nat.
Proof.
  intros H. destruct (monitor_loop_inv _ _ _ _ _ _ _ H) as (Hg & Hcase).
  split; [assumption|].
  destruct Hcase as [[_ Hc]|(e & _ & _ & _ & _ & _ & pre & -> & Hpre)];
    [assumption|].
  rewrite !count_generate_app, Hpre, count_generate_probe_failure.
  reflexivity.
Qed.

(** How the monitoring loop ends and how fast it turns: the clock never
    goes back, every turn but the last takes more than 5 seconds, and a
    returned value tells what the last probe showed. *)
Lemma monitor_loop_exit (fuel : nat) (w : World) (r : Result bool)
  (w' : World) (evs : list Event) :
  monitor_loop daemon T fuel w = (r, w', evs) ->
  clock w <= clock w'
  /\ (ps_calls w <= ps_calls w')%nat
  /\ clock w + 5 * (Z.of_nat (ps_calls w') - Z.of_nat (ps_calls w) - 1)
     <= clock w'
  /\ match r with
     | Val b =>
         (ps_calls w < ps_calls w')%nat
         /\ exists response pre,
              ps daemon (pred (ps_calls w')) = Returns response
              /\ (if b
                  then has_names (get_models response) = true
                       /\ py_in T (names_of (get_models response)) = true
                       /\ (1 < List.length (get_models response))%nat
                  else get_models response = []
                       /\ evs = pre ++ [EvPs; EvInfo (MsgNoLongerLoaded T)])
     | _ => True
     end.
Proof.
  revert w r w' evs. induction fuel as [|fuel IH]; intros w r w' evs H.
  - simpl in H. unfold out_of_fuel in H. inversion H; subst.
    repeat split; lia.
  - change (monitor_loop daemon T (S fuel) w)
      with (bind (monitor_step daemon T)
              (fun r => match r with
                        | Some b => ret b
                        | None => monitor_loop daemon T fuel
                        end) w) in H.
    unfold bind in H.
    destruct (monitor_step daemon T w) as [[r1 w1] evs1] eqn:E1.
    destruct (monitor_step_spec _ _ _ _ _ _ E1) as (Hp1 & _ & _ & _).
    destruct (monitor_step_turn _ _ _ _ E1) as (Hclock & Hturn).
    destruct r1 as [[b|]|e|].
    + unfold ret in H. inversion H; subst.
      split; [assumption|]. split; [lia|]. split; [lia|].
      split; [lia|]. rewrite Hp1. simpl.
      destruct b.
      * destruct Hturn as (response & Hps & Hn & Hin & Hlen & _ & _).
        exists response, []. auto.
      * destruct Hturn as (response & Hps & Hm & _ & Hevs).
        exists response, []. rewrite Hevs. auto.
    + destruct (monitor_loop daemon T fuel w1) as [[r2 w2] evs2] eqn:E2.
      inversion H; subst.
      destruct (IH _ _ _ _ E2) as (Hc2 & Hp2 & Hpace & Hexit).
      split; [lia|]. split; [lia|]. split; [lia|].
      destruct r as [b| |]; try exact I.
      destruct Hexit as (Hlt & response & pre & Hps & Hb).
      split; [lia|].
      destruct b.
      * exists response, pre. auto.
      * destruct Hb as (Hm & Hevs).
        exists response, (evs1 ++ pre). split; [assumption|].
        split; [assumption|]. rewrite Hevs, app_assoc. reflexivity.
    + inversion H; subst. repeat split; lia.
    + inversion H; subst. repeat split; lia.
Qed.

Lemma monitor_for_other_models_val (fuel : nat) (w : World) (b : bool)
  (w' : World) (evs : list Event) :
  monitor_for_other_models daemon T fuel w = (Val b, w', evs) ->
  monitor_loop daemon T fuel w = (Val b, w', evs).
Proof.
  unfold monitor_for_other_models, try_except, except_Exception.
  destruct (monitor_loop daemon T fuel w) as [[[b'|e|] w1] t1]; intros H.
  - exact H.
  - exfalso. destruct (is_Exception e); simpl in H; inversion H.
  - discriminate.
Qed.

(** When [monitor_for_other_models] returns, every probe it made had
    returned and no load was made; [False] means that its last probe
    showed no loaded model at all, [True] that it showed the target among
    two entries or more. *)
Theorem monitor_return_tells_last_probe (fuel : nat) (w : World) (b : bool)
  (w' : World) (evs : list Event) :
  monitor_for_other_models daemon T fuel w = (Val b, w', evs) ->
  (ps_calls w < ps_calls w')%nat
  /\ generate_calls w' = generate_calls w
  /\ count_generate evs = 0%nat
  /\ probes_ok daemon (ps_calls w) (ps_calls w')
  /\ exists response,
       ps daemon (pred (ps_calls w')) = Returns response
       /\ if b
          then has_names (get_models response) = true
               /\ py_in T (names_of (get_models response)) = true
               /\ (1 < List.length (get_models response))%nat
          else get_models response = [].
Proof.
  intros H. apply monitor_for_other_models_val in H.
  destruct (monitor_loop_quiet _ _ _ _ _ H) as (Hg & Hc).
  destruct (monitor_loop_exit _ _ _ _ _ H) as (_ & _ & _ & Hlt & Hexit).
  destruct (monitor_loop_inv _ _ _ _ _ _ _ H) as (_ & Hcase).
  split; [assumption|]. split; [assumption|]. split; [assumption|].
  split.
  - destruct Hcase as [[(_ & Hok & _) _]|(e & He & _)];
      [assumption|discriminate].
  - destruct Hexit as (response & pre & Hps & Hb).
    exists response. split; [assumption|].
    destruct b; [assumption|]. destruct Hb as [Hm _]. assumption.
Qed.

End Turns.

Lemma monitor_return_tells_last_probe_witness :
  let daemon :=
    scripted_daemon [Returns (mkResponse (Some [numbered "B" 0]))]
                    (Returns (mkResponse (Some []))) (Returns EmptyString) in
  let w := mkWorld 50 0 0 in
  monitor_for_other_models daemon "B" 5 w =
    (Val false, mkWorld 110 2 0,
     alone_turn "B" ++ [EvPs; EvInfo (MsgNoLongerLoaded "B")])
  /\ exists response,
       ps daemon (pred (ps_calls (mkWorld 110 2 0))) = Returns response
       /\ get_models response = [].
Proof.
  split; [reflexivity|].
  destruct (monitor_return_tells_last_probe
              (scripted_daemon [Returns (mkResponse (Some [numbered "B" 0]))]
                 (Returns (mkResponse (Some []))) (Returns EmptyString))
              "B" 5 (mkWorld 50 0 0) false _ _ eq_refl)
    as (_ & _ & _ & _ & H).
  exact H.
Defined.

(** ** When a load is made, and how fast the cycles turn *)

Lemma wait_for_unload_steady (t : Z) (w : World) :
  exists w' evs,
    wait_for_unload (PyNum t) w = (Val tt, w', evs)
    /\ ps_calls w' = ps_calls w
    /\ generate_calls w' = generate_calls w
    /\ count_generate evs = 0%nat
    /\ clock w <= clock w'.
Proof.
  destruct (Z_lt_le_dec (clock w) t) as [H|H].
  - rewrite (wait_for_unload_ahead w t H).
    eexists; eexists. repeat split; first [reflexivity | simpl; lia].
  - rewrite (wait_for_unload_past w t H).
    eexists; eexists. repeat split; first [reflexivity | simpl; lia].
Qed.

Ltac count0 :=
  unfold count_generate in *; unfold probe_failure, load_failure; simpl;
  repeat rewrite filter_app; repeat rewrite length_app; simpl;
  repeat match goal with
         | |- context [is_Exception ?e] => destruct (is_Exception e); simpl
         end;
  lia.

Ltac same_list :=
  simpl; repeat rewrite <- app_assoc; simpl; repeat rewrite app_nil_r;
  reflexivity.

Ltac clock_le :=
  simpl in *; unfold CYCLE_INTERVAL, MONITOR_INTERVAL in *; lia.

Section Loads.

Variable daemon : Daemon.
Variable T : string.

Lemma load_model_events (wm : World) (r : Result unit) (w' : World)
  (evs : list Event) :
  load_model daemon T wm = (r, w', evs) ->
  w' = after_generate wm
  /\ exists post,
       evs = EvGenerate T (-1) :: post
       /\ count_generate post = 0%nat
       /\ (r = Val tt \/ exists e, r = Exn e).
Proof.
  intros H. destruct (load_model_cases _ _ _ _ _ _ H) as (Hw & Hcase).
  split; [assumption|].
  destruct Hcase as [(reply & _ & -> & ->)|(e & _ & -> & ->)].
  - eexists. split; [reflexivity|]. split; [reflexivity|]. left. reflexivity.
  - eexists. split; [reflexivity|]. split; [count0|]. right. eauto.
Qed.

Lemma main_cycle_loads (fuel : nat) (w : World) (r : Result unit)
  (w' : World) (evs : list Event) :
  main_cycle daemon T fuel w = (r, w', evs) ->
  clock w <= clock w'
  /\ (r = Val tt -> clock w + CYCLE_INTERVAL <= clock w')
  /\ (no_load w w' evs \/ loaded_after_empty_probe daemon T w w' evs).
Proof.
  intros H. unfold_cycle_in H.
  destruct (ps daemon (ps_calls w)) as [response|e] eqn:Hps.
  2:{ erewrite check_loaded_models_raises in H by eassumption.
      simpl in H. inversion H; subst.
      split; [clock_le|]. split; [discriminate|].
      left. split; [reflexivity|count0]. }
  erewrite check_loaded_models_returns in H by eassumption.
  rewrite model_names_of_run in H.
  destruct (has_names (get_models response)) eqn:Hnames.
  2:{ simpl in H. inversion H; subst.
      split; [clock_le|]. split; [discriminate|].
      left. split; [reflexivity|count0]. }
  destruct (py_in T (names_of (get_models response))) eqn:Hin.
  - destruct (monitor_loop daemon T fuel (after_ps w)) as [[rm wm] evsm] eqn:Em.
    destruct (monitor_loop_quiet _ _ _ _ _ _ _ Em) as (Hgm & Hcm).
    destruct (monitor_loop_exit _ _ _ _ _ _ _ Em) as (Hclk & Hpm & _ & Hexit).
    destruct rm as [[|]|e|].
    + simpl in H. inversion H; subst.
      split; [clock_le|]. split; [intros _; clock_le|].
      left. split; [simpl in *; congruence|count0].
    + simpl in H.
      destruct (load_model daemon T wm) as [[rl wl] evsl] eqn:El.
      destruct (load_model_events _ _ _ _ El)
        as (Hwl & post & Hevsl & Hpost & Hrl).
      destruct Hexit as (Hlt & resp & pre & Hlast & Hempty & Hevsm).
      assert (Hpre : count_generate pre = 0%nat).
      { rewrite Hevsm, count_generate_app in Hcm. lia. }
      subst wl evsl evsm.
      destruct Hrl as [->|(e & ->)]; simpl in H; inversion H; subst.
      * split; [clock_le|]. split; [intros _; clock_le|].
        right. unfold loaded_after_empty_probe. simpl in *.
        split; [congruence|]. split; [lia|]. split; [eauto|].
        exists ([EvInfo MsgEnteringCycle; EvPs; EvInfo (MsgAlreadyLoaded T)]
                ++ pre),
               [EvInfo (MsgNoLongerLoaded T); EvInfo (MsgNoModelsNow T)],
               (post ++ [EvInfo MsgCycleComplete; EvSleep CYCLE_INTERVAL]).
        split; [same_list|]. split; [reflexivity|]. split; count0.
      * split; [clock_le|]. split; [discriminate|].
        right. unfold loaded_after_empty_probe. simpl in *.
        split; [congruence|]. split; [lia|]. split; [eauto|].
        exists ([EvInfo MsgEnteringCycle; EvPs; EvInfo (MsgAlreadyLoaded T)]
                ++ pre),
               [EvInfo (MsgNoLongerLoaded T); EvInfo (MsgNoModelsNow T)],
               post.
        split; [same_list|]. split; [reflexivity|]. split; count0.
    + assert (Hshape : r = Exn e /\ w' = wm /\ count_generate evs = 0%nat).
      { destruct (is_Exception e); simpl in H; inversion H; subst;
          repeat split; count0. }
      destruct Hshape as (-> & -> & Hc).
      split; [clock_le|]. split; [discriminate|].
      left. split; [simpl in *; congruence|assumption].
    + simpl in H. inversion H; subst.
      split; [clock_le|]. split; [discriminate|].
      left. split; [simpl in *; congruence|count0].
  - destruct (get_models response) as [|m rest] eqn:Hm.
    + simpl in H.
      destruct (load_model daemon T (after_ps w)) as [[rl wl] evsl] eqn:El.
      destruct (load_model_events _ _ _ _ El)
        as (Hwl & post & Hevsl & Hpost & Hrl).
      subst wl evsl.
      destruct Hrl as [->|(e & ->)]; simpl in H; inversion H; subst.
      * split; [clock_le|]. split; [intros _; clock_le|].
        right. unfold loaded_after_empty_probe. simpl.
        split; [reflexivity|]. split; [lia|]. split; [eauto|].
        exists [EvInfo MsgEnteringCycle], [EvInfo (MsgNoModels T)],
               (post ++ [EvInfo MsgCycleComplete; EvSleep CYCLE_INTERVAL]).
        split; [same_list|]. split; [reflexivity|]. split; count0.
      * split; [clock_le|]. split; [discriminate|].
        right. unfold loaded_after_empty_probe. simpl.
        split; [reflexivity|]. split; [lia|]. split; [eauto|].
        exists [EvInfo MsgEnteringCycle], [EvInfo (MsgNoModels T)], post.
        split; [same_list|]. split; [reflexivity|]. split; count0.
    + destruct (main_latest_pure (m :: rest) 0 (after_ps w))
        as (rl & Elat & Hrl).
      rewrite Elat in H.
      destruct rl as [latest|e|]; [| |contradiction].
      * destruct (0 <? latest).
        -- destruct (wait_for_unload_steady latest (after_ps w))
             as (w1 & evs1 & Ew & Hp & Hg & Hc & Hclk).
           rewrite Ew in H. simpl in H. simpl in Hp, Hg, Hclk.
           destruct (ps daemon (ps_calls w1)) as [new_response|e] eqn:Hps2.
           ++ erewrite check_loaded_models_returns in H by eassumption.
              simpl in H.
              destruct (get_models new_response) as [|m' rest'] eqn:Hnew.
              ** destruct (load_model daemon T (after_ps w1))
                   as [[rl wl] evsl] eqn:El.
                 destruct (load_model_events _ _ _ _ El)
                   as (Hwl & post & Hevsl & Hpost & Hrl').
                 subst wl evsl.
                 destruct Hrl' as [->|(e & ->)]; simpl in H;
                   inversion H; subst.
                 --- split; [clock_le|]. split; [intros _; clock_le|].
                     right. unfold loaded_after_empty_probe. simpl.
                     split; [congruence|]. split; [lia|]. split; [eauto|].
                     exists ([EvInfo MsgEnteringCycle; EvPs;
                              EvInfo (MsgOtherWaiting latest)] ++ evs1),
                            [EvInfo (MsgNoModelsNow T)],
                            (post ++ [EvInfo MsgCycleComplete;
                                      EvSleep CYCLE_INTERVAL]).
                     split; [same_list|]. split; [reflexivity|]. split; count0.
                 --- split; [clock_le|]. split; [discriminate|].
                     right. unfold loaded_after_empty_probe. simpl.
                     split; [congruence|]. split; [lia|]. split; [eauto|].
                     exists ([EvInfo MsgEnteringCycle; EvPs;
                              EvInfo (MsgOtherWaiting latest)] ++ evs1),
                            [EvInfo (MsgNoModelsNow T)], post.
                     split; [same_list|]. split; [reflexivity|]. split; count0.
              ** rewrite model_names_of_run in H.
                 destruct (has_names (m' :: rest')); simpl in H;
                   inversion H; subst.
                 --- split; [clock_le|]. split; [intros _; clock_le|].
                     left. split; [simpl; congruence|count0].
                 --- split; [clock_le|]. split; [discriminate|].
                     left. split; [simpl; congruence|count0].
           ++ erewrite check_loaded_models_raises in H by eassumption.
              simpl in H. inversion H; subst.
              split; [clock_le|]. split; [discriminate|].
              left. split; [simpl; congruence|count0].
        -- simpl in H. inversion H; subst.
           split; [clock_le|]. split; [intros _; clock_le|].
           left. split; [reflexivity|count0].
      * simpl in H. inversion H; subst.
        split; [clock_le|]. split; [discriminate|].
        left. split; [reflexivity|count0].
Qed.

End Loads.

Section Runs.

Variable daemon : Daemon.
Variable T : string.

Lemma filter_generate_info (mid : list Event) :
  forallb is_info mid = true -> filter is_generate mid = [].
Proof.
  induction mid as [|ev mid IH]; simpl; intros H; [reflexivity|].
  apply andb_prop in H. destruct H as [Hev Hmid].
  destruct ev; try discriminate. simpl. auto.
Qed.

Lemma count_generate_none (evs : list Event) :
  count_generate evs = 0%nat -> filter is_generate evs = [].
Proof. unfold count_generate. apply length_zero_iff_nil. Qed.

Lemma main_iteration_generates (fuel : nat) (w : World)
  (r : Result LoopCtl) (w' : World) (evs : list Event) :
  main_iteration daemon T fuel w = (r, w', evs) ->
  (filter is_generate evs = [] /\ generate_calls w' = generate_calls w)
  \/ (filter is_generate evs = [EvGenerate T (-1)]
      /\ generate_calls w' = S (generate_calls w)).
Proof.
  intros H. rewrite main_iteration_cases in H.
  destruct (main_cycle daemon T fuel w) as [[rc wc] evc] eqn:Ec.
  destruct (main_cycle_loads _ _ _ _ _ _ _ Ec) as (_ & _ & Hload).
  assert (Hshape : generate_calls w' = generate_calls wc
                   /\ filter is_generate evs = filter is_generate evc).
  { destruct rc as [u|e|].
    - inversion H; subst. auto.
    - destruct (is_Exception e); inversion H; subst;
        rewrite filter_app, app_nil_r; auto.
    - inversion H; subst. auto. }
  destruct Hshape as (-> & ->).
  destruct Hload as [(Hgen & Hc)|(Hgen & _ & _ & pre & mid & post
                                  & -> & Hmid & Hpre & Hpost)].
  - left. auto using count_generate_none.
  - right. split; [|assumption].
    rewrite filter_app. simpl. rewrite filter_app. simpl.
    rewrite (count_generate_none _ Hpre), (count_generate_none _ Hpost),
      (filter_generate_info _ Hmid).
    reflexivity.
Qed.

(** Whatever the daemon answers, a run of [main] only ever asks it to load
    the target, with [keep_alive = -1], and at most once per cycle. *)
Theorem main_only_loads_target (cycles fuel : nat) (w : World)
  (r : Result unit) (w' : World) (evs : list Event) :
  main daemon T cycles fuel w = (r, w', evs) ->
  exists k,
    (k <= cycles)%nat
    /\ filter is_generate evs = repeat (EvGenerate T (-1)) k
    /\ generate_calls w' = (generate_calls w + k)%nat.
Proof.
  unfold main, bind, logger_info, emit.
  destruct (main_loop daemon T cycles fuel w) as [[r1 w1] evs1] eqn:E.
  intros H.
  assert (Hshape : w' = w1 /\ filter is_generate evs = filter is_generate evs1).
  { inversion H; subst. auto. }
  destruct Hshape as (-> & ->). clear H r.
  revert w r1 w1 evs1 E.
  induction cycles as [|cycles IH]; intros w r1 w1 evs1 E.
  - simpl in E. unfold out_of_fuel in E. inversion E; subst.
    exists 0%nat. repeat split; simpl; lia.
  - change (main_loop daemon T (S cycles) fuel w)
      with (bind (main_iteration daemon T fuel)
              (fun ctl => match ctl with
                          | Break => ret tt
                          | Continue => main_loop daemon T cycles fuel
                          end) w) in E.
    unfold bind in E.
    destruct (main_iteration daemon T fuel w) as [[ri wi] evsi] eqn:Ei.
    pose proof (main_iteration_generates _ _ _ _ _ Ei) as Hi.
    assert (Hrest : exists k evs2,
              (k <= cycles)%nat
              /\ evs1 = evsi ++ evs2
              /\ filter is_generate evs2 = repeat (EvGenerate T (-1)) k
              /\ generate_calls w1 = (generate_calls wi + k)%nat).
    { destruct ri as [[|]|e|].
      - destruct (main_loop daemon T cycles fuel wi) as [[r2 w2] evs2] eqn:E2.
        inversion E; subst.
        destruct (IH _ _ _ _ E2) as (k & Hk & Hf & Hg).
        exists k, evs2. auto.
      - unfold ret in E. inversion E; subst.
        exists 0%nat, []. repeat split; simpl; lia.
      - inversion E; subst. exists 0%nat, [].
        rewrite app_nil_r. repeat split; simpl; lia.
      - inversion E; subst. exists 0%nat, [].
        rewrite app_nil_r. repeat split; simpl; lia. }
    destruct Hrest as (k & evs2 & Hk & -> & Hf & Hg).
    rewrite filter_app, Hf.
    destruct Hi as [(Hfi & Hgi)|(Hfi & Hgi)]; rewrite Hfi.
    + exists k. split; [lia|]. split; [reflexivity|]. lia.
    + exists (S k). split; [lia|]. split; [reflexivity|]. lia.
Qed.

(** No busy polling in [main]: a cycle that ends with [Continue] has let
    at least [CYCLE_INTERVAL] seconds pass, and the clock never goes back
    in a cycle. *)
Theorem main_cycle_takes_time (fuel : nat) (w : World)
  (r : Result LoopCtl) (w' : World) (evs : list Event) :
  main_iteration daemon T fuel w = (r, w', evs) ->
  clock w <= clock w'
  /\ (r = Val Continue -> clock w + CYCLE_INTERVAL <= clock w').
Proof.
  intros H. rewrite main_iteration_cases in H.
  destruct (main_cycle daemon T fuel w) as [[rc wc] evc] eqn:Ec.
  destruct (main_cycle_loads _ _ _ _ _ _ _ Ec) as (Hclk & Hpace & _).
  destruct rc as [[]|e|].
  - inversion H; subst. split; [assumption|]. intros _. auto.
  - destruct (is_Exception e); inversion H; subst; simpl;
      unfold CYCLE_INTERVAL; split; try lia; discriminate.
  - inversion H; subst. split; [assumption|discriminate].
Qed.

(** No busy polling in the monitoring loop: every turn but the last takes
    more than 5 seconds, so that [n] probes take at least [5 * (n - 1)]
    seconds. *)
Theorem monitor_turns_take_time (fuel : nat) (w : World) (r : Result bool)
  (w' : World) (evs : list Event) :
  monitor_for_other_models daemon T fuel w = (r, w', evs) ->
  (ps_calls w <= ps_calls w')%nat
  /\ clock w + 5 * (Z.of_nat (ps_calls w' - ps_calls w) - 1) <= clock w'.
Proof.
  unfold monitor_for_other_models, try_except, except_Exception.
  destruct (monitor_loop daemon T fuel w) as [[rl wl] evsl] eqn:E.
  destruct (monitor_loop_exit _ _ _ _ _ _ _ E) as (_ & Hp & Hpace & _).
  intros H.
  assert (Hw : w' = wl).
  { destruct rl as [b|e|]; try (inversion H; reflexivity).
    destruct (is_Exception e); simpl in H; inversion H; reflexivity. }
  subst w'. split; [assumption|].
  rewrite Nat2Z.inj_sub by assumption. lia.
Qed.

(** An interrupt delivered in a daemon call of a cycle ends the loop: the
    cycle yields [Break], the interrupted call is followed by the
    "stopped" line alone (no error line, no backoff), and [main]'s loop
    returns whatever number of cycles it had left. *)
Theorem interrupt_ends_loop (fuel cycles : nat) (w : World)
  (r : Result LoopCtl) (w' : World) (evs : list Event) :
  main_iteration daemon T fuel w = (r, w', evs) ->
  (exists i, (ps_calls w <= i < ps_calls w')%nat
             /\ ps daemon i = Raises KeyboardInterrupt)
  \/ (generate_calls w' = S (generate_calls w)
      /\ generate daemon (generate_calls w) = Raises KeyboardInterrupt) ->
  r = Val Break
  /\ (exists pre call,
        evs = pre ++ [call; EvInfo MsgStopped]
        /\ (call = EvPs \/ call = EvGenerate T (-1)))
  /\ main_loop daemon T (S cycles) fuel w = (Val tt, w', evs).
Proof.
  intros H Hint.
  assert (Hbreak : r = Val Break
    /\ exists pre call,
         evs = pre ++ [call; EvInfo MsgStopped]
         /\ (call = EvPs \/ call = EvGenerate T (-1))).
  { pose proof H as H0. rewrite main_iteration_cases in H0.
    destruct (main_cycle daemon T fuel w) as [[rc wc] evc] eqn:Ec.
    destruct (main_cycle_run _ _ _ _ _ _ _ Ec) as (_ & Hclass).
    destruct Hclass as [Hclean|[(e & mid & Hfail & Hmid)|(e & Hfail)]].
    - exfalso. destruct Hclean as (Hle & Hok & Hgen & Hr).
      assert (Hw : ps_calls w' = ps_calls wc
                   /\ generate_calls w' = generate_calls wc).
      { destruct rc as [u|e|]; [inversion H0; subst; auto| |
                                 inversion H0; subst; auto].
        destruct (is_Exception e); inversion H0; subst; auto. }
      destruct Hw as (Hp & Hg). rewrite Hp, Hg in Hint.
      destruct Hint as [(i & Hi & Hraise)|(Hs & Hraise)].
      + exact (probes_ok_not_raised _ _ _ _ _ Hok Hi Hraise).
      + destruct Hgen as [Hgen|[_ (reply & Hreply)]]; [lia|congruence].
    - destruct Hfail as (-> & Hlt & Hok & Hlast & Hgen & pre & -> & Hpre).
      assert (Hw : ps_calls w' = ps_calls wc
                   /\ generate_calls w' = generate_calls wc).
      { destruct (is_Exception e); inversion H0; subst; auto. }
      destruct Hw as (Hp & Hg). rewrite Hp, Hg in Hint.
      assert (He : e = KeyboardInterrupt).
      { destruct Hint as [(i & Hi & Hraise)|(Hs & _)]; [|lia].
        destruct (Nat.eq_dec i (pred (ps_calls wc))) as [->|Hneq].
        - congruence.
        - exfalso.
          apply (probes_ok_not_raised _ _ _ i KeyboardInterrupt Hok);
            [lia|assumption]. }
      subst e. simpl in H0. inversion H0; subst.
      split; [reflexivity|].
      destruct Hmid as [->|[Hexc _]]; [|discriminate].
      exists pre, EvPs. split; [|left; reflexivity].
      unfold probe_failure. simpl.
      repeat rewrite <- app_assoc. reflexivity.
    - destruct Hfail as (-> & Hle & Hok & Hgen & Hraised & pre & -> & Hpre).
      assert (Hw : ps_calls w' = ps_calls wc
                   /\ generate_calls w' = generate_calls wc).
      { destruct (is_Exception e); inversion H0; subst; auto. }
      destruct Hw as (Hp & Hg). rewrite Hp, Hg in Hint.
      assert (He : e = KeyboardInterrupt).
      { destruct Hint as [(i & Hi & Hraise)|(_ & Hraise)]; [|congruence].
        exfalso. exact (probes_ok_not_raised _ _ _ _ _ Hok Hi Hraise). }
      subst e. simpl in H0. inversion H0; subst.
      split; [reflexivity|].
      exists pre, (EvGenerate T (-1)). split; [|right; reflexivity].
      unfold load_failure. simpl.
      repeat rewrite <- app_assoc. reflexivity. }
  destruct Hbreak as (-> & Hevs).
  split; [reflexivity|]. split; [assumption|].
  change (main_loop daemon T (S cycles) fuel w)
    with (bind (main_iteration daemon T fuel)
            (fun ctl => match ctl with
                        | Break => ret tt
                        | Continue => main_loop daemon T cycles fuel
                        end) w).
  unfold bind. rewrite H. unfold ret. rewrite app_nil_r. reflexivity.
Qed.

End Runs.

Lemma main_only_loads_target_witness :
  let daemon :=
    scripted_daemon [Returns (mkResponse (Some []))]
                    (Returns (mkResponse (Some [unnumbered "A"])))
                    (Returns EmptyString) in
  let w := mkWorld 50 0 0 in
  fst (fst (main daemon "B" 2 1 w)) = OutOfFuel
  /\ exists k,
       (k <= 2)%nat
       /\ filter is_generate (snd (main daemon "B" 2 1 w))
          = repeat (EvGenerate "B" (-1)) k
       /\ generate_calls (snd (fst (main daemon "B" 2 1 w)))
          = (generate_calls w + k)%nat.
Proof.
  split; [reflexivity|].
  exact (main_only_loads_target
           (scripted_daemon [Returns (mkResponse (Some []))]
              (Returns (mkResponse (Some [unnumbered "A"])))
              (Returns EmptyString))
           "B" 2 1 (mkWorld 50 0 0) _ _ _ eq_refl).
Defined.

Lemma main_cycle_takes_time_witness :
  let daemon := steady_daemon [numbered "B" 0; numbered "A" 0] in
  let w := mkWorld 50 0 0 in
  main_iteration daemon "B" 1 w =
    (Val Continue, mkWorld 55 2 0,
     [EvInfo MsgEnteringCycle; EvPs; EvInfo (MsgAlreadyLoaded "B"); EvPs;
      EvInfo (MsgOtherDetected ["A"%string]);
      EvInfo MsgCycleComplete; EvSleep CYCLE_INTERVAL])
  /\ clock w + CYCLE_INTERVAL <= clock (mkWorld 55 2 0).
Proof.
  split; [reflexivity|].
  exact (proj2 (main_cycle_takes_time
                  (steady_daemon [numbered "B" 0; numbered "A" 0]) "B" 1
                  (mkWorld 50 0 0) _ _ _ eq_refl) eq_refl).
Defined.

Lemma monitor_turns_take_time_witness :
  let daemon :=
    scripted_daemon [Returns (mkResponse (Some [numbered "B" 0]));
                     Returns (mkResponse (Some [numbered "A" 100]))]
                    (Returns (mkResponse (Some []))) (Returns EmptyString) in
  let w := mkWorld 50 0 0 in
  monitor_for_other_models daemon "B" 5 w =
    (Val false, mkWorld 170 3 0,
     alone_turn "B" ++ never_turn ++ [EvPs; EvInfo (MsgNoLongerLoaded "B")])
  /\ clock w + 5 * (Z.of_nat (3 - ps_calls w) - 1) <= 170.
Proof.
  split; [reflexivity|].
  exact (proj2 (monitor_turns_take_time
                  (scripted_daemon
                     [Returns (mkResponse (Some [numbered "B" 0]));
                      Returns (mkResponse (Some [numbered "A" 100]))]
                     (Returns (mkResponse (Some []))) (Returns EmptyString))
                  "B" 5 (mkWorld 50 0 0) _ _ _ eq_refl)).
Defined.

Lemma interrupt_ends_loop_witness :
  let daemon :=
    scripted_daemon [] (Raises KeyboardInterrupt) (Returns EmptyString) in
  let w := mkWorld 50 0 0 in
  let evs := [EvInfo MsgEnteringCycle; EvPs; EvInfo MsgStopped] in
  main_iteration daemon "B" 1 w = (Val Break, mkWorld 50 1 0, evs)
  /\ ((exists i, (ps_calls w <= i < ps_calls (mkWorld 50 1 0))%nat
                 /\ ps daemon i = Raises KeyboardInterrupt)
      \/ (generate_calls (mkWorld 50 1 0) = S (generate_calls w)
          /\ generate daemon (generate_calls w) = Raises KeyboardInterrupt))
  /\ main_loop daemon "B" 4 1 w = (Val tt, mkWorld 50 1 0, evs).
Proof.
  split; [reflexivity|].
  assert (Hint :
    (exists i, (ps_calls (mkWorld 50 0 0) <= i < ps_calls (mkWorld 50 1 0))%nat
               /\ ps (scripted_daemon [] (Raises KeyboardInterrupt)
                        (Returns EmptyString)) i = Raises KeyboardInterrupt)
    \/ (generate_calls (mkWorld 50 1 0) = S (generate_calls (mkWorld 50 0 0))
        /\ generate (scripted_daemon [] (Raises KeyboardInterrupt)
                       (Returns EmptyString))
             (generate_calls (mkWorld 50 0 0)) = Raises KeyboardInterrupt)).
  { left. exists 0%nat. split; [split; [apply le_n|apply le_n]|reflexivity]. }
  split; [exact Hint|].
  exact (proj2 (proj2 (interrupt_ends_loop
                         (scripted_daemon [] (Raises KeyboardInterrupt)
                            (Returns EmptyString))
                         "B" 1 3 (mkWorld 50 0 0) _ _ _ eq_refl Hint))).
Defined.

(** ** Error lines and completed cycles *)

Ltac silent :=
  unfold count_error in *; simpl;
  repeat rewrite filter_app; repeat rewrite length_app; simpl;
  lia.

Lemma wait_for_unload_silent (t : Z) (w : World) :
  exists w' evs,
    wait_for_unload (PyNum t) w = (Val tt, w', evs)
    /\ count_error evs = 0%nat.
Proof.
  destruct (Z_lt_le_dec (clock w) t) as [H|H].
  - rewrite (wait_for_unload_ahead w t H).
    eexists; eexists. split; reflexivity.
  - rewrite (wait_for_unload_past w t H).
    eexists; eexists. split; reflexivity.
Qed.

Section Silent.

Variable daemon : Daemon.
Variable T : string.

Lemma monitor_step_silent (w : World) (o : option bool) (w' : World)
  (evs : list Event) :
  monitor_step daemon T w = (Val o, w', evs) -> count_error evs = 0%nat.
Proof.
  intros H. unfold monitor_step in H. unfold_cycle_in H.
  destruct (ps daemon (ps_calls w)) as [response|e] eqn:Hps.
  - erewrite check_loaded_models_returns in H by eassumption.
    rewrite model_names_of_run in H.
    destruct (has_names (get_models response)); [|discriminate].
    destruct (py_in T (names_of (get_models response))).
    + destruct (1 <? List.length (names_of (get_models response)))%nat;
        inversion H; subst; reflexivity.
    + destruct (get_models response) as [|m rest].
      * inversion H; subst; reflexivity.
      * destruct (monitor_latest_pure (m :: rest) 0 (after_ps w))
          as (rl & El & _).
        rewrite El in H.
        destruct rl as [latest|e|]; try discriminate.
        destruct (0 <? latest).
        -- destruct (wait_for_unload_silent latest (after_ps w))
             as (w1 & evs1 & Ew & Hc).
           rewrite Ew in H. inversion H; subst. silent.
        -- inversion H; subst; reflexivity.
  - erewrite check_loaded_models_raises in H by eassumption.
    discriminate.
Qed.

Lemma monitor_loop_silent (fuel : nat) (w : World) (b : bool) (w' : World)
  (evs : list Event) :
  monitor_loop daemon T fuel w = (Val b, w', evs) -> count_error evs = 0%nat.
Proof.
  revert w w' evs. induction fuel as [|fuel IH]; intros w w' evs H.
  - discriminate.
  - change (monitor_loop daemon T (S fuel) w)
      with (bind (monitor_step daemon T)
              (fun r => match r with
                        | Some b => ret b
                        | None => monitor_loop daemon T fuel
                        end) w) in H.
    unfold bind in H.
    destruct (monitor_step daemon T w) as [[r1 w1] evs1] eqn:E1.
    destruct r1 as [o|e|]; try discriminate.
    pose proof (monitor_step_silent _ _ _ _ E1) as Hc1.
    destruct o as [b'|].
    + unfold ret in H. inversion H; subst. silent.
    + destruct (monitor_loop daemon T fuel w1) as [[r2 w2] evs2] eqn:E2.
      inversion H; subst.
      pose proof (IH _ _ _ E2) as Hc2. silent.
Qed.

Lemma main_cycle_silent (fuel : nat) (w w' : World) (evs : list Event) :
  main_cycle daemon T fuel w = (Val tt, w', evs) ->
  count_error evs = 0%nat
  /\ exists pre,
       evs = pre ++ [EvInfo MsgCycleComplete; EvSleep CYCLE_INTERVAL].
Proof.
  intros H. unfold_cycle_in H.
  destruct (ps daemon (ps_calls w)) as [response|e] eqn:Hps.
  2:{ erewrite check_loaded_models_raises in H by eassumption.
      discriminate. }
  erewrite check_loaded_models_returns in H by eassumption.
  rewrite model_names_of_run in H.
  destruct (has_names (get_models response)); [|discriminate].
  destruct (py_in T (names_of (get_models response))).
  - destruct (monitor_loop daemon T fuel (after_ps w)) as [[rm wm] evsm] eqn:Em.
    destruct rm as [b|e|];
      [| destruct (is_Exception e); simpl in H; discriminate
       | discriminate ].
    pose proof (monitor_loop_silent _ _ _ _ _ Em) as Hcm.
    destruct b.
    + simpl in H. inversion H; subst. split; [silent|].
      exists ([EvInfo MsgEnteringCycle; EvPs; EvInfo (MsgAlreadyLoaded T)]
              ++ evsm).
      same_list.
    + simpl in H.
      destruct (load_model daemon T wm) as [[rl wl] evsl] eqn:El.
      destruct (load_model_cases _ _ _ _ _ _ El) as (_ & Hload).
      destruct Hload as [(reply & _ & -> & ->)|(e & _ & -> & _)];
        [|discriminate].
      simpl in H. inversion H; subst. split; [silent|].
      exists ([EvInfo MsgEnteringCycle; EvPs; EvInfo (MsgAlreadyLoaded T)]
              ++ evsm
              ++ [EvInfo (MsgNoModelsNow T); EvGenerate T (-1);
                  EvInfo (MsgLoaded T)]).
      same_list.
  - destruct (get_models response) as [|m rest].
    + simpl in H.
      destruct (load_model daemon T (after_ps w)) as [[rl wl] evsl] eqn:El.
      destruct (load_model_cases _ _ _ _ _ _ El) as (_ & Hload).
      destruct Hload as [(reply & _ & -> & ->)|(e & _ & -> & _)];
        [|discriminate].
      simpl in H. inversion H; subst. split; [reflexivity|].
      exists [EvInfo MsgEnteringCycle; EvPs; EvInfo (MsgNoModels T);
              EvGenerate T (-1); EvInfo (MsgLoaded T)].
      reflexivity.
    + destruct (main_latest_pure (m :: rest) 0 (after_ps w))
        as (rl & Elat & _).
      rewrite Elat in H.
      destruct rl as [latest|e|]; try discriminate.
      destruct (0 <? latest).
      * destruct (wait_for_unload_silent latest (after_ps w))
          as (w1 & evs1 & Ew & Hc).
        rewrite Ew in H. simpl in H.
        destruct (ps daemon (ps_calls w1)) as [new_response|e] eqn:Hps2.
        2:{ erewrite check_loaded_models_raises in H by eassumption.
            discriminate. }
        erewrite check_loaded_models_returns in H by eassumption.
        simpl in H.
        destruct (get_models new_response) as [|m' rest'].
        -- destruct (load_model daemon T (after_ps w1))
             as [[rl wl] evsl] eqn:El.
           destruct (load_model_cases _ _ _ _ _ _ El) as (_ & Hload).
           destruct Hload as [(reply & _ & -> & ->)|(e & _ & -> & _)];
             [|discriminate].
           simpl in H. inversion H; subst. split; [silent|].
           exists ([EvInfo MsgEnteringCycle; EvPs;
                    EvInfo (MsgOtherWaiting latest)] ++ evs1
                   ++ [EvPs; EvInfo (MsgNoModelsNow T); EvGenerate T (-1);
                       EvInfo (MsgLoaded T)]).
           same_list.
        -- rewrite model_names_of_run in H.
           destruct (has_names (m' :: rest')); [|discriminate].
           simpl in H. inversion H; subst. split; [silent|].
           exists ([EvInfo MsgEnteringCycle; EvPs;
                    EvInfo (MsgOtherWaiting latest)] ++ evs1
                   ++ [EvPs;
                       EvInfo (MsgStillLoaded (names_of (m' :: rest')))]).
           same_list.
      * simpl in H. inversion H; subst. split; [reflexivity|].
        exists [EvInfo MsgEnteringCycle; EvPs; EvInfo MsgOnlyNonExpiring;
                EvSleep MONITOR_INTERVAL].
        reflexivity.
Qed.

(** A cycle that lets the loop continue ended in one of two ways: it ran
    to its end, logged no error line and closed with the "cycle complete"
    line and the [CYCLE_INTERVAL] pause; or an exception was raised, and
    the cycle closed with the error line, the "retrying" line and the
    10-second pause.  An error is never logged by a cycle that ran to its
    end. *)
Theorem continue_is_complete_or_backoff (fuel : nat) (w w' : World)
  (evs : list Event) :
  main_iteration daemon T fuel w = (Val Continue, w', evs) ->
  (count_error evs = 0%nat
   /\ exists pre,
        evs = pre ++ [EvInfo MsgCycleComplete; EvSleep CYCLE_INTERVAL])
  \/ (exists e wc pre,
        is_Exception e = true
        /\ main_cycle daemon T fuel w = (Exn e, wc, pre)
        /\ w' = after_sleep 10 wc
        /\ evs = pre ++ backoff e).
Proof.
  intros H. rewrite main_iteration_cases in H.
  destruct (main_cycle daemon T fuel w) as [[rc wc] evc] eqn:Ec.
  destruct rc as [[]|e|]; [| |discriminate].
  - inversion H; subst. left. exact (main_cycle_silent _ _ _ _ Ec).
  - destruct (is_Exception e) eqn:He; inversion H; subst.
    right. exists e, wc, evc. auto.
Qed.

End Silent.

Lemma continue_is_complete_or_backoff_witness :
  let daemon := steady_daemon [numbered "A" 100] in
  let w := mkWorld 50 0 0 in
  let evs := [EvInfo MsgEnteringCycle; EvPs; EvInfo (MsgOtherWaiting 100);
              EvInfo (MsgWaiting 50); EvSleep 50; EvPs;
              EvInfo (MsgStillLoaded ["A"%string]);
              EvInfo MsgCycleComplete; EvSleep CYCLE_INTERVAL] in
  main_iteration daemon "B" 1 w = (Val Continue, mkWorld 105 2 0, evs)
  /\ ((count_error evs = 0%nat
       /\ exists pre,
            evs = pre ++ [EvInfo MsgCycleComplete; EvSleep CYCLE_INTERVAL])
      \/ (exists e wc pre,
            is_Exception e = true
            /\ main_cycle daemon "B" 1 w = (Exn e, wc, pre)
            /\ mkWorld 105 2 0 = after_sleep 10 wc
            /\ evs = pre ++ backoff e)).
Proof.
  split; [reflexivity|].
  exact (continue_is_complete_or_backoff (steady_daemon [numbered "A" 100])
           "B" 1 (mkWorld 50 0 0) _ _ eq_refl).
Defined.

(** ** Every probe of a cycle, and the load it may lead to *)

Ltac probes :=
  unfold count_ps, count_generate in *;
  unfold probe_failure, load_failure; simpl in *;
  repeat first [rewrite filter_app in * | rewrite length_app in *
               | progress simpl in *];
  repeat match goal with
         | |- context [is_Exception ?e] => destruct (is_Exception e); simpl
         end;
  lia.

Lemma wait_for_unload_still (t : Z) (w : World) :
  exists w' evs,
    wait_for_unload (PyNum t) w = (Val tt, w', evs)
    /\ ps_calls w' = ps_calls w
    /\ generate_calls w' = generate_calls w
    /\ count_generate evs = 0%nat
    /\ count_ps evs = 0%nat.
Proof.
  destruct (Z_lt_le_dec (clock w) t) as [H|H].
  - rewrite (wait_for_unload_ahead w t H).
    eexists; eexists. repeat split; reflexivity.
  - rewrite (wait_for_unload_past w t H).
    eexists; eexists. repeat split; reflexivity.
Qed.

Section Probes.

Variable daemon : Daemon.
Variable T : string.

Lemma empty_turn_run (w : World) (response : Response) :
  ps daemon (ps_calls w) = Returns response ->
  get_models response = [] ->
  monitor_step daemon T w =
  (Val (Some false), after_ps w, [EvPs; EvInfo (MsgNoLongerLoaded T)]).
Proof.
  intros Hps Hempty. unfold monitor_step. unfold_cycle.
  erewrite check_loaded_models_returns by eassumption.
  rewrite Hempty. reflexivity.
Qed.

Lemma monitor_step_probes (w : World) (r : Result (option bool))
  (w' : World) (evs : list Event) :
  monitor_step daemon T w = (r, w', evs) -> count_ps evs = 1%nat.
Proof.
  intros H. unfold monitor_step in H. unfold_cycle_in H.
  destruct (ps daemon (ps_calls w)) as [response|e] eqn:Hps.
  - erewrite check_loaded_models_returns in H by eassumption.
    rewrite model_names_of_run in H.
    destruct (has_names (get_models response)).
    + destruct (py_in T (names_of (get_models response))).
      * destruct (1 <? List.length (names_of (get_models response)))%nat;
          inversion H; subst; reflexivity.
      * destruct (get_models response) as [|m rest].
        -- inversion H; subst; reflexivity.
        -- destruct (monitor_latest_pure (m :: rest) 0 (after_ps w))
             as (rl & El & _).
           rewrite El in H.
           destruct rl as [latest|e|].
           ++ destruct (0 <? latest).
              ** destruct (wait_for_unload_still latest (after_ps w))
                   as (w1 & evs1 & Ew & _ & _ & _ & Hc).
                 rewrite Ew in H. inversion H; subst. probes.
              ** inversion H; subst; reflexivity.
           ++ inversion H; subst; reflexivity.
           ++ inversion H; subst; reflexivity.
    + inversion H; subst; reflexivity.
  - erewrite check_loaded_models_raises in H by eassumption.
    inversion H; subst. probes.
Qed.

(** The monitoring loop logs one [EvPs] for each probe it makes, and a
    probe that returns an empty snapshot is its last: the loop returns
    [False] on it. *)
Lemma monitor_loop_probes (fuel : nat) (w : World) (r : Result bool)
  (w' : World) (evs : list Event) :
  monitor_loop daemon T fuel w = (r, w', evs) ->
  (ps_calls w <= ps_calls w')%nat
  /\ count_ps evs = (ps_calls w' - ps_calls w)%nat
  /\ forall i response,
       (ps_calls w <= i < ps_calls w')%nat ->
       ps daemon i = Returns response ->
       get_models response = [] ->
       S i = ps_calls w' /\ r = Val false.
Proof.
  revert w r w' evs. induction fuel as [|fuel IH]; intros w r w' evs H.
  - simpl in H. unfold out_of_fuel in H. inversion H; subst.
    split; [lia|]. split; [unfold count_ps; simpl; lia|].
    intros i response Hi. lia.
  - change (monitor_loop daemon T (S fuel) w)
      with (bind (monitor_step daemon T)
              (fun r => match r with
                        | Some b => ret b
                        | None => monitor_loop daemon T fuel
                        end) w) in H.
    unfold bind in H.
    destruct (monitor_step daemon T w) as [[r1 w1] evs1] eqn:E1.
    destruct (monitor_step_spec _ _ _ _ _ _ E1) as (Hp1 & _ & _ & _).
    pose proof (monitor_step_probes _ _ _ _ E1) as Hc1.
    assert (Hfirst : forall response,
              ps daemon (ps_calls w) = Returns response ->
              get_models response = [] ->
              r1 = Val (Some false)).
    { intros response Hps Hempty.
      rewrite (empty_turn_run _ _ Hps Hempty) in E1.
      inversion E1. reflexivity. }
    destruct r1 as [[b|]|e|].
    + unfold ret in H. inversion H; subst.
      split; [lia|]. split; [rewrite app_nil_r; lia|].
      intros i response Hi Hret Hempty.
      assert (i = ps_calls w) by lia. subst i.
      specialize (Hfirst _ Hret Hempty). inversion Hfirst; subst.
      split; [lia|reflexivity].
    + destruct (monitor_loop daemon T fuel w1) as [[r2 w2] evs2] eqn:E2.
      inversion H; subst.
      destruct (IH _ _ _ _ E2) as (Hle & Hc2 & Hempties).
      split; [lia|]. split; [probes|].
      intros i response Hi Hret Hempty.
      destruct (Nat.eq_dec i (ps_calls w)) as [->|Hneq].
      * specialize (Hfirst _ Hret Hempty). discriminate.
      * apply (Hempties i response); [lia|assumption|assumption].
    + inversion H; subst.
      split; [lia|]. split; [lia|].
      intros i response Hi Hret Hempty.
      assert (i = ps_calls w) by lia. subst i.
      specialize (Hfirst _ Hret Hempty). discriminate.
    + inversion H; subst.
      split; [lia|]. split; [lia|].
      intros i response Hi Hret Hempty.
      assert (i = ps_calls w) by lia. subst i.
      specialize (Hfirst _ Hret Hempty). discriminate.
Qed.

End Probes.

Ltac not_loaded :=
  split;
  [ intros Hs; exfalso; simpl in *; first [lia | congruence]
  | left; simpl in *; first [reflexivity | congruence] ].

Lemma run_eq {A : Type} (r r' : Result A) (w w' : World)
  (evs evs' : list Event) :
  r = r' -> w = w' -> evs = evs' -> (r, w, evs) = (r', w', evs').
Proof. intros -> -> ->. reflexivity. Qed.

Ltac closes_with wl pre mid G :=
  exists wl, pre, mid;
  split; [reflexivity|];
  split; [probes|];
  split; [probes|];
  split; [simpl in *; congruence|];
  rewrite G; apply run_eq; [reflexivity|reflexivity|same_list].

Section Cycle.

Variable daemon : Daemon.
Variable T : string.

Lemma main_cycle_probes (fuel : nat) (w : World) (r : Result unit)
  (w' : World) (evs : list Event) :
  main_cycle daemon T fuel w = (r, w', evs) ->
  (ps_calls w < ps_calls w')%nat
  /\ ps_calls w' = (count_ps evs + ps_calls w)%nat
  /\ (forall i response,
        (ps_calls w <= i < ps_calls w')%nat ->
        ps daemon i = Returns response ->
        get_models response = [] ->
        S i = ps_calls w' /\ generate_calls w' = S (generate_calls w))
  /\ (generate_calls w' = S (generate_calls w) ->
      (exists response,
         ps daemon (pred (ps_calls w')) = Returns response
         /\ get_models response = [])
      /\ load_closes_cycle daemon T w (r, w', evs))
  /\ (generate_calls w' = generate_calls w
      \/ generate_calls w' = S (generate_calls w)).
Proof.
  intros H. unfold_cycle_in H.
  destruct (ps daemon (ps_calls w)) as [response|e] eqn:Hps.
  2:{ erewrite check_loaded_models_raises in H by eassumption.
      simpl in H. inversion H; subst.
      split; [simpl; lia|]. split; [probes|].
      split.
      { intros i resp Hi Hret Hempty. simpl in Hi.
        assert (i = ps_calls w) by lia. subst i. congruence. }
      not_loaded. }
  erewrite check_loaded_models_returns in H by eassumption.
  rewrite model_names_of_run in H.
  destruct (has_names (get_models response)) eqn:Hnames.
  2:{ simpl in H. inversion H; subst.
      split; [simpl; lia|]. split; [probes|].
      split.
      { intros i resp Hi Hret Hempty. simpl in Hi.
        assert (i = ps_calls w) by lia. subst i.
        rewrite Hps in Hret. inversion Hret; subst resp.
        rewrite Hempty in Hnames. discriminate. }
      not_loaded. }
  destruct (py_in T (names_of (get_models response))) eqn:Hin.
  - destruct (monitor_loop daemon T fuel (after_ps w)) as [[rm wm] evsm] eqn:Em.
    destruct (monitor_loop_quiet _ _ _ _ _ _ _ Em) as (Hgm & Hcm).
    destruct (monitor_loop_probes _ _ _ _ _ _ _ Em) as (Hpm & Hcpm & Hempties).
    destruct (monitor_loop_exit _ _ _ _ _ _ _ Em) as (_ & _ & _ & Hexit).
    simpl in Hgm, Hpm, Hcpm.
    assert (Hall : forall i resp,
              (ps_calls w <= i < ps_calls wm)%nat ->
              ps daemon i = Returns resp ->
              get_models resp = [] ->
              S i = ps_calls wm /\ rm = Val false).
    { intros i resp Hi Hret Hempty.
      destruct (Nat.eq_dec i (ps_calls w)) as [->|Hneq].
      - exfalso. rewrite Hps in Hret. inversion Hret; subst resp.
        rewrite Hempty in Hin. discriminate.
      - apply (Hempties i resp); [simpl; lia|assumption|assumption]. }
    clear Hempties.
    destruct rm as [[|]|e|].
    + simpl in H. inversion H; subst.
      split; [simpl; lia|]. split; [probes|].
      split.
      { intros i resp Hi Hret Hempty. simpl in Hi.
        destruct (Hall i resp Hi Hret Hempty) as (_ & Hf). discriminate. }
      not_loaded.
    + simpl in H.
      destruct (load_model daemon T wm) as [[rl wl] evsl] eqn:El.
      destruct Hexit as (Hlt & resp0 & pre & Hlast & Hempty0 & Hevsm).
      assert (Hpre : count_generate pre = 0%nat).
      { rewrite Hevsm, count_generate_app in Hcm. lia. }
      subst evsm. clear Em.
      destruct (load_model_cases _ _ _ _ _ _ El)
        as (Hwl & [(reply & G & -> & ->)|(e & G & -> & ->)]);
        subst wl; rewrite Hgm in G; simpl in H; inversion H; subst; clear H.
      * split; [simpl; lia|]. split; [probes|].
        split.
        { intros i resp Hi Hret Hempty. simpl in *.
          destruct (Hall i resp Hi Hret Hempty) as (Hsi & _).
          split; [assumption|congruence]. }
        split; [|right; simpl; congruence].
        intros _. split; [exists resp0; simpl; auto|].
        closes_with wm
          ([EvInfo MsgEnteringCycle; EvPs; EvInfo (MsgAlreadyLoaded T)]
           ++ pre)
          [EvInfo (MsgNoLongerLoaded T); EvInfo (MsgNoModelsNow T)] G.
      * split; [simpl; lia|]. split; [probes|].
        split.
        { intros i resp Hi Hret Hempty. simpl in *.
          destruct (Hall i resp Hi Hret Hempty) as (Hsi & _).
          split; [assumption|congruence]. }
        split; [|right; simpl; congruence].
        intros _. split; [exists resp0; simpl; auto|].
        closes_with wm
          ([EvInfo MsgEnteringCycle; EvPs; EvInfo (MsgAlreadyLoaded T)]
           ++ pre)
          [EvInfo (MsgNoLongerLoaded T); EvInfo (MsgNoModelsNow T)] G.
    + assert (Hshape : w' = wm /\ count_ps evs = S (count_ps evsm)).
      { destruct (is_Exception e); simpl in H; inversion H; subst;
          split; try reflexivity; probes. }
      destruct Hshape as (-> & Hc).
      split; [simpl; lia|]. split; [lia|].
      split.
      { intros i resp Hi Hret Hempty.
        destruct (Hall i resp Hi Hret Hempty) as (_ & Hf). discriminate. }
      not_loaded.
    + simpl in H. inversion H; subst.
      split; [simpl; lia|]. split; [probes|].
      split.
      { intros i resp Hi Hret Hempty.
        destruct (Hall i resp Hi Hret Hempty) as (_ & Hf). discriminate. }
      not_loaded.
  - destruct (get_models response) as [|m rest] eqn:Hm.
    + simpl in H.
      destruct (load_model daemon T (after_ps w)) as [[rl wl] evsl] eqn:El.
      destruct (load_model_cases _ _ _ _ _ _ El)
        as (Hwl & [(reply & G & -> & ->)|(e & G & -> & ->)]);
        subst wl; simpl in G; simpl in H; inversion H; subst; clear H.
      * split; [simpl; lia|]. split; [probes|].
        split; [intros i resp Hi _ _; simpl in *; split; [lia|reflexivity]|].
        split; [|right; reflexivity].
        intros _. split; [exists response; simpl; auto|].
        closes_with (after_ps w) [EvInfo MsgEnteringCycle]
          [EvInfo (MsgNoModels T)] G.
      * split; [simpl; lia|]. split; [probes|].
        split; [intros i resp Hi _ _; simpl in *; split; [lia|reflexivity]|].
        split; [|right; reflexivity].
        intros _. split; [exists response; simpl; auto|].
        closes_with (after_ps w) [EvInfo MsgEnteringCycle]
          [EvInfo (MsgNoModels T)] G.
    + assert (Hfirst : forall resp,
                ps daemon (ps_calls w) = Returns resp ->
                get_models resp = [] -> False).
      { intros resp Hret Hempty. rewrite Hps in Hret.
        inversion Hret; subst resp. congruence. }
      destruct (main_latest_pure (m :: rest) 0 (after_ps w))
        as (rl & Elat & Hrl).
      rewrite Elat in H.
      destruct rl as [latest|e|]; [| |contradiction].
      * destruct (0 <? latest).
        -- destruct (wait_for_unload_still latest (after_ps w))
             as (w1 & evs1 & Ew & Hp & Hg & Hc & Hcp).
           rewrite Ew in H. simpl in H. simpl in Hp, Hg.
           destruct (ps daemon (ps_calls w1)) as [new_response|e] eqn:Hps2.
           ++ erewrite check_loaded_models_returns in H by eassumption.
              simpl in H.
              destruct (get_models new_response) as [|m' rest'] eqn:Hnew.
              ** destruct (load_model daemon T (after_ps w1))
                   as [[rl wl] evsl] eqn:El.
                 assert (Hlast : exists resp0,
                           ps daemon (pred (S (ps_calls w1))) = Returns resp0
                           /\ get_models resp0 = []).
                 { exists new_response. simpl. auto. }
                 assert (Hall : forall i resp,
                           (ps_calls w <= i < S (ps_calls w1))%nat ->
                           ps daemon i = Returns resp ->
                           get_models resp = [] ->
                           S i = S (ps_calls w1)).
                 { intros i resp Hi Hret' Hempty.
                   destruct (Nat.eq_dec i (ps_calls w)) as [->|Hneq];
                     [exfalso; eauto|lia]. }
                 destruct (load_model_cases _ _ _ _ _ _ El)
                   as (Hwl & [(reply & G & -> & ->)|(e & G & -> & ->)]);
                   subst wl; simpl in G; rewrite Hg in G; simpl in H;
                   inversion H; subst; clear H.
                 --- split; [simpl; lia|]. split; [probes|].
                     split.
                     { intros i resp Hi Hret' Hempty. simpl in *.
                       split; [eauto|congruence]. }
                     split; [|right; simpl; congruence].
                     intros _. split; [exact Hlast|].
                     closes_with (after_ps w1)
                       ([EvInfo MsgEnteringCycle; EvPs;
                         EvInfo (MsgOtherWaiting latest)] ++ evs1)
                       [EvInfo (MsgNoModelsNow T)] G.
                 --- split; [simpl; lia|]. split; [probes|].
                     split.
                     { intros i resp Hi Hret' Hempty. simpl in *.
                       split; [eauto|congruence]. }
                     split; [|right; simpl; congruence].
                     intros _. split; [exact Hlast|].
                     closes_with (after_ps w1)
                       ([EvInfo MsgEnteringCycle; EvPs;
                         EvInfo (MsgOtherWaiting latest)] ++ evs1)
                       [EvInfo (MsgNoModelsNow T)] G.
              ** assert (Hall : forall i resp,
                           (ps_calls w <= i < S (ps_calls w1))%nat ->
                           ps daemon i = Returns resp ->
                           get_models resp = [] -> False).
                 { intros i resp Hi Hret' Hempty.
                   destruct (Nat.eq_dec i (ps_calls w)) as [->|Hneq];
                     [eauto|].
                   assert (i = ps_calls w1) by lia. subst i.
                   rewrite Hps2 in Hret'. inversion Hret'; subst resp.
                   congruence. }
                 rewrite model_names_of_run in H.
                 destruct (has_names (m' :: rest')); simpl in H;
                   inversion H; subst.
                 --- split; [simpl; lia|]. split; [probes|].
                     split; [intros i resp Hi Hr He; exfalso; eauto|].
                     not_loaded.
                 --- split; [simpl; lia|]. split; [probes|].
                     split; [intros i resp Hi Hr He; exfalso; eauto|].
                     not_loaded.
           ++ erewrite check_loaded_models_raises in H by eassumption.
              simpl in H. inversion H; subst.
              split; [simpl; lia|]. split; [probes|].
              split.
              { intros i resp Hi Hret' Hempty. simpl in Hi. exfalso.
                destruct (Nat.eq_dec i (ps_calls w)) as [->|Hneq];
                  [eauto|].
                assert (i = ps_calls w1) by lia. subst i. congruence. }
              not_loaded.
        -- simpl in H. inversion H; subst.
           split; [simpl; lia|]. split; [probes|].
           split.
           { intros i resp Hi Hret' Hempty. simpl in Hi. exfalso.
             assert (i = ps_calls w) by lia. subst i. eauto. }
           not_loaded.
      * simpl in H. inversion H; subst.
        split; [simpl; lia|]. split; [probes|].
        split.
        { intros i resp Hi Hret' Hempty. simpl in Hi. exfalso.
          assert (i = ps_calls w) by lia. subst i. eauto. }
        not_loaded.
Qed.

End Cycle.

(** ** An empty snapshot anywhere in a cycle *)

Section Loaded.

Variable daemon : Daemon.
Variable T : string.

Lemma main_iteration_probes (fuel : nat) (w : World) (r : Result LoopCtl)
  (w' : World) (evs : list Event) :
  main_iteration daemon T fuel w = (r, w', evs) ->
  (ps_calls w < ps_calls w')%nat
  /\ ps_calls w' = (count_ps evs + ps_calls w)%nat
  /\ (forall i response,
        (ps_calls w <= i < ps_calls w')%nat ->
        ps daemon i = Returns response ->
        get_models response = [] ->
        S i = ps_calls w' /\ generate_calls w' = S (generate_calls w))
  /\ (generate_calls w' = S (generate_calls w) ->
      (exists response,
         ps daemon (pred (ps_calls w')) = Returns response
         /\ get_models response = [])
      /\ load_ends_turn daemon T w (r, w', evs))
  /\ (generate_calls w' = generate_calls w
      \/ generate_calls w' = S (generate_calls w)).
Proof.
  intros H. rewrite main_iteration_cases in H.
  destruct (main_cycle daemon T fuel w) as [[rc wc] evc] eqn:Ec.
  destruct (main_cycle_probes _ _ _ _ _ _ _ Ec)
    as (Hlt & Hcnt & Hemp & Hload & Hgen).
  assert (Hshape : ps_calls w' = ps_calls wc
                   /\ generate_calls w' = generate_calls wc
                   /\ count_ps evs = count_ps evc).
  { destruct rc as [u|e|]; [| destruct (is_Exception e) |];
      inversion H; subst; repeat split; probes. }
  destruct Hshape as (Hp & Hg & Hc).
  rewrite Hp, Hg, Hc.
  split; [assumption|]. split; [assumption|]. split; [assumption|].
  split; [|assumption].
  intros Hs. destruct (Hload Hs) as (Hlast & wl & pre & mid & Hmid & Hpre
                                     & Hwl & Hgl & Hrun).
  split; [assumption|].
  exists wl, pre, mid.
  split; [assumption|]. split; [assumption|]. split; [assumption|].
  split; [assumption|].
  destruct (generate daemon (generate_calls w)) as [reply|e'].
  - injection Hrun as -> -> ->. inversion H; subst. reflexivity.
  - injection Hrun as -> -> ->. unfold load_failure in H.
    destruct (is_Exception e'); inversion H; subst;
      apply run_eq; try reflexivity;
      repeat first [rewrite <- app_assoc | progress simpl]; reflexivity.
Qed.

(** C4: whichever probe of a cycle shows no loaded model, the first one of
    [main], the one after an unload wait or one made while monitoring, it
    is the last probe of the cycle, and the cycle makes exactly one Loader
    call, for the target, after it: only log lines lie between the probe
    and the request.  When the request returns, the turn ends with the
    success line and the [CYCLE_INTERVAL] pause, and the loop goes on. *)
Theorem empty_snapshot_loads_target_once (fuel : nat) (w : World)
  (r : Result LoopCtl) (w' : World) (evs : list Event) (i : nat)
  (response : Response) :
  main_iteration daemon T fuel w = (r, w', evs) ->
  (ps_calls w <= i < ps_calls w')%nat ->
  ps daemon i = Returns response ->
  get_models response = [] ->
  S i = ps_calls w'
  /\ ps_calls w' = (count_ps evs + ps_calls w)%nat
  /\ generate_calls w' = S (generate_calls w)
  /\ filter is_generate evs = [EvGenerate T (-1)]
  /\ load_ends_turn daemon T w (r, w', evs).
Proof.
  intros H Hi Hps Hempty.
  destruct (main_iteration_probes _ _ _ _ _ H)
    as (_ & Hcnt & Hemp & Hload & _).
  destruct (Hemp i response Hi Hps Hempty) as (Hsi & Hs).
  destruct (Hload Hs) as (_ & Hends).
  split; [assumption|]. split; [assumption|]. split; [assumption|].
  split; [|assumption].
  destruct Hends as (wl & pre & mid & Hmid & Hpre & _ & _ & Hrun).
  assert (Hevs : exists tail,
            evs = pre ++ EvPs :: mid ++ EvGenerate T (-1) :: tail
            /\ filter is_generate tail = []).
  { destruct (generate daemon (generate_calls w)) as [reply|e].
    - injection Hrun as _ _ ->. eexists. split; reflexivity.
    - destruct (is_Exception e); injection Hrun as _ _ ->;
        eexists; split; reflexivity. }
  destruct Hevs as (tail & -> & Htail).
  rewrite filter_app. simpl. rewrite filter_app. simpl.
  rewrite (count_generate_none _ Hpre), (filter_generate_info _ Hmid), Htail.
  reflexivity.
Qed.

(** A cycle of [main] makes a load only on a probe that showed no loaded
    model.  The probes in the trace are the calls the daemon received, in
    order; either the cycle made no load at all, or it made exactly one,
    for the target with [keep_alive = -1]: then the last call returned an
    empty snapshot, its [EvPs] is the last one of the trace, and nothing
    but log lines (no sleep, no other call) lies between it and the load. *)
Theorem load_only_after_empty_probe (fuel : nat) (w : World)
  (r : Result LoopCtl) (w' : World) (evs : list Event) :
  main_iteration daemon T fuel w = (r, w', evs) ->
  ps_calls w' = (count_ps evs + ps_calls w)%nat
  /\ (no_load w w' evs
      \/ (generate_calls w' = S (generate_calls w)
          /\ loaded_on_last_probe daemon T w w' evs)).
Proof.
  intros H.
  destruct (main_iteration_probes _ _ _ _ _ H)
    as (_ & Hcnt & _ & Hload & Hgen).
  split; [assumption|].
  destruct Hgen as [Hsame|Hs].
  - left. split; [assumption|].
    destruct (main_iteration_generates daemon T _ _ _ _ _ H)
      as [(Hnone & _)|(_ & Hs)]; [|lia].
    unfold count_generate. rewrite Hnone. reflexivity.
  - right. split; [assumption|].
    destruct (Hload Hs) as (Hlast & wl & pre & mid & Hmid & Hpre & Hwl
                            & Hgl & Hrun).
    split; [assumption|].
    assert (Hevs : exists tail,
              evs = pre ++ EvPs :: mid ++ EvGenerate T (-1) :: tail
              /\ ps_calls w' = ps_calls wl
              /\ count_generate tail = 0%nat
              /\ count_ps tail = 0%nat).
    { destruct (generate daemon (generate_calls w)) as [reply|e].
      - injection Hrun as _ -> ->. eexists. repeat split; reflexivity.
      - destruct (is_Exception e); injection Hrun as _ -> ->;
          eexists; repeat split; reflexivity. }
    destruct Hevs as (tail & Hevs & Hp & Htg & Htp).
    exists pre, mid, tail. rewrite Hp. auto 10.
Qed.

End Loaded.

Lemma empty_snapshot_loads_target_once_witness :
  let daemon :=
    scripted_daemon [Returns (mkResponse (Some [numbered "B" 0]))]
                    (Returns (mkResponse (Some [])))
                    (Returns EmptyString) in
  let w := mkWorld 50 0 0 in
  let evs := [EvInfo MsgEnteringCycle; EvPs; EvInfo (MsgAlreadyLoaded "B");
              EvPs; EvInfo (MsgNoLongerLoaded "B");
              EvInfo (MsgNoModelsNow "B"); EvGenerate "B" (-1);
              EvInfo (MsgLoaded "B"); EvInfo MsgCycleComplete;
              EvSleep CYCLE_INTERVAL] in
  main_iteration daemon "B" 2 w = (Val Continue, mkWorld 55 2 1, evs)
  /\ (ps_calls w <= 1 < 2)%nat
  /\ ps daemon 1 = Returns (mkResponse (Some []))
  /\ get_models (mkResponse (Some [])) = []
  /\ filter is_generate evs = [EvGenerate "B" (-1)]
  /\ load_ends_turn daemon "B" w (Val Continue, mkWorld 55 2 1, evs).
Proof.
  split; [reflexivity|]. split; [simpl; lia|].
  split; [reflexivity|]. split; [reflexivity|].
  apply (empty_snapshot_loads_target_once
           (scripted_daemon [Returns (mkResponse (Some [numbered "B" 0]))]
              (Returns (mkResponse (Some []))) (Returns EmptyString))
           "B" 2 (mkWorld 50 0 0) _ _ _ 1%nat (mkResponse (Some []))
           eq_refl);
    [simpl; lia|reflexivity|reflexivity].
Defined.

Lemma load_only_after_empty_probe_witness :
  let daemon :=
    scripted_daemon [Returns (mkResponse (Some [numbered "A" 70]))]
                    (Returns (mkResponse (Some [])))
                    (Returns EmptyString) in
  let w := mkWorld 50 0 0 in
  let evs := snd (main_iteration daemon "B" 1 w) in
  main_iteration daemon "B" 1 w = (Val Continue, mkWorld 75 2 1, evs)
  /\ ps_calls (mkWorld 75 2 1) = (count_ps evs + ps_calls w)%nat
  /\ (no_load w (mkWorld 75 2 1) evs
      \/ (generate_calls (mkWorld 75 2 1) = S (generate_calls w)
          /\ loaded_on_last_probe daemon "B" w (mkWorld 75 2 1) evs)).
Proof.
  split; [reflexivity|].
  exact (load_only_after_empty_probe
           (scripted_daemon [Returns (mkResponse (Some [numbered "A" 70]))]
              (Returns (mkResponse (Some []))) (Returns EmptyString))
           "B" 1 (mkWorld 50 0 0) _ _ _ eq_refl).
Defined.

(** ** The loop of [main] around the failure boundary *)

Section Loop.

Variable daemon : Daemon.
Variable T : string.

Lemma main_loop_step (cycles fuel : nat) (w : World) :
  main_loop daemon T (S cycles) fuel w =
  match main_iteration daemon T fuel w with
  | (Val Continue, w1, evs1) =>
      let '(r2, w2, evs2) := main_loop daemon T cycles fuel w1 in
      (r2, w2, evs1 ++ evs2)
  | (Val Break, w1, evs1) => (Val tt, w1, evs1)
  | (Exn e, w1, evs1) => (Exn e, w1, evs1)
  | (OutOfFuel, w1, evs1) => (OutOfFuel, w1, evs1)
  end.
Proof.
  change (main_loop daemon T (S cycles) fuel w)
    with (bind (main_iteration daemon T fuel)
            (fun ctl => match ctl with
                        | Break => ret tt
                        | Continue => main_loop daemon T cycles fuel
                        end) w).
  unfold bind.
  destruct (main_iteration daemon T fuel w) as [[[[|]|e|] w1] evs1];
    try reflexivity.
  unfold ret. rewrite app_nil_r. reflexivity.
Qed.

Lemma main_iteration_interrupt (fuel : nat) (w : World) (r : Result LoopCtl)
  (w' : World) (evs : list Event) :
  main_iteration daemon T fuel w = (r, w', evs) ->
  (ps_calls w <= ps_calls w')%nat
  /\ (generate_calls w <= generate_calls w')%nat
  /\ (r = Val Break <-> interrupted daemon w w')
  /\ (r = Val Break -> exists pre, evs = pre ++ [EvInfo MsgStopped]).
Proof.
  intros H. rewrite main_iteration_cases in H.
  destruct (main_cycle daemon T fuel w) as [[rc wc] evc] eqn:Ec.
  destruct (main_cycle_run _ _ _ _ _ _ _ Ec) as (_ & Hclass).
  destruct Hclass as [Hclean|[(e & mid & Hfail & Hmid)|(e & Hfail)]].
  - destruct Hclean as (Hle & Hok & Hgen & Hr).
    assert (Hshape : r <> Val Break /\ ps_calls w' = ps_calls wc
                     /\ generate_calls w' = generate_calls wc).
    { destruct rc as [u|e|].
      - inversion H; subst. repeat split; discriminate.
      - destruct Hr as [Hr|Hr]; [discriminate|]. simpl in Hr.
        rewrite Hr in H. inversion H; subst.
        repeat split; discriminate.
      - inversion H; subst. repeat split; discriminate. }
    destruct Hshape as (Hnb & Hp & Hg).
    unfold interrupted. rewrite Hp, Hg.
    split; [assumption|].
    split; [destruct Hgen as [Hgen|[Hgen _]]; lia|].
    split; [|intros Hb; contradiction].
    split; [intros Hb; contradiction|].
    intros [(i & Hi & Hraise)|(j & Hj & Hraise)]; exfalso.
    + exact (probes_ok_not_raised _ _ _ _ _ Hok Hi Hraise).
    + destruct Hgen as [Hgen|[Hgen (reply & Hreply)]]; [lia|].
      assert (j = generate_calls w) by lia. subst j. congruence.
  - destruct Hfail as (Hrc & Hlt & Hok & Hlast & Hgen & pre & Hevs & Hpre).
    subst rc.
    destruct (is_Exception e) eqn:Hexc;
      injection H as Hr Hw He; subst r w' evs; unfold interrupted; simpl.
    + split; [lia|]. split; [lia|].
      split; [|discriminate].
      split; [discriminate|].
      intros [(i & Hi & Hraise)|(j & Hj & Hraise)]; exfalso; [|lia].
      destruct (Nat.eq_dec i (pred (ps_calls wc))) as [->|Hneq].
      * rewrite Hlast in Hraise. inversion Hraise; subst e. discriminate.
      * apply (probes_ok_not_raised _ _ _ i KeyboardInterrupt Hok);
          [lia|assumption].
    + split; [lia|]. split; [lia|].
      split; [|intros _; eexists; reflexivity].
      split; [|reflexivity].
      intros _. left. exists (pred (ps_calls wc)).
      split; [lia|]. destruct e; try discriminate. assumption.
  - destruct Hfail as (Hrc & Hle & Hok & Hgen & Hraised & pre & Hevs & Hpre).
    subst rc.
    destruct (is_Exception e) eqn:Hexc;
      injection H as Hr Hw He; subst r w' evs; unfold interrupted; simpl.
    + split; [lia|]. split; [lia|].
      split; [|discriminate].
      split; [discriminate|].
      intros [(i & Hi & Hraise)|(j & Hj & Hraise)]; exfalso.
      * exact (probes_ok_not_raised _ _ _ _ _ Hok Hi Hraise).
      * assert (j = generate_calls w) by lia. subst j.
        rewrite Hraised in Hraise. inversion Hraise; subst e. discriminate.
    + split; [lia|]. split; [lia|].
      split; [|intros _; eexists; reflexivity].
      split; [|reflexivity].
      intros _. right. exists (generate_calls w).
      split; [lia|]. destruct e; try discriminate. assumption.
Qed.

Lemma main_loop_ends_on_stop (fuel cycles : nat) :
  forall (w : World) (r : Result unit) (w' : World) (evs : list Event),
  main_loop daemon T cycles fuel w = (r, w', evs) ->
  (ps_calls w <= ps_calls w')%nat
  /\ (generate_calls w <= generate_calls w')%nat
  /\ (forall e, r <> Exn e)
  /\ (r = Val tt <-> interrupted daemon w w')
  /\ (r = Val tt -> exists pre, evs = pre ++ [EvInfo MsgStopped]).
Proof.
  induction cycles as [|cycles IH]; intros w r w' evs H.
  - inversion H; subst.
    split; [lia|]. split; [lia|]. split; [discriminate|].
    split; [|discriminate].
    split; [discriminate|].
    intros [(i & Hi & _)|(j & Hj & _)]; lia.
  - rewrite main_loop_step in H.
    destruct (main_iteration daemon T fuel w) as [[r1 w1] evs1] eqn:E.
    destruct (main_iteration_interrupt _ _ _ _ _ E)
      as (Hp1 & Hg1 & Hb1 & Hs1).
    destruct (main_iteration_boundary _ _ _ _ _ _ _ E) as (Hne & _).
    destruct r1 as [[|]|e|].
    + destruct (main_loop daemon T cycles fuel w1) as [[r2 w2] evs2] eqn:E2.
      inversion H; subst.
      destruct (IH _ _ _ _ E2) as (Hp2 & Hg2 & Hne2 & Hb2 & Hs2).
      split; [lia|]. split; [lia|]. split; [assumption|].
      split.
      * split.
        -- intros Hr. apply Hb2 in Hr.
           destruct Hr as [(i & Hi & Hraise)|(j & Hj & Hraise)];
             [left; exists i|right; exists j]; split; (lia || assumption).
        -- intros [(i & Hi & Hraise)|(j & Hj & Hraise)].
           ++ destruct (Nat.lt_ge_cases i (ps_calls w1)) as [Hlt|Hge].
              ** exfalso. assert (Hb : Val Continue = Val Break);
                   [|discriminate].
                 apply Hb1. left. exists i. split; [lia|assumption].
              ** apply Hb2. left. exists i. split; [lia|assumption].
           ++ destruct (Nat.lt_ge_cases j (generate_calls w1)) as [Hlt|Hge].
              ** exfalso. assert (Hb : Val Continue = Val Break);
                   [|discriminate].
                 apply Hb1. right. exists j. split; [lia|assumption].
              ** apply Hb2. right. exists j. split; [lia|assumption].
      * intros Hr. destruct (Hs2 Hr) as (pre & ->).
        exists (evs1 ++ pre). rewrite app_assoc. reflexivity.
    + inversion H; subst.
      split; [assumption|]. split; [assumption|]. split; [discriminate|].
      split; [|intros _; apply Hs1; reflexivity].
      split; [intros _; apply Hb1; reflexivity|reflexivity].
    + exfalso. exact (Hne e eq_refl).
    + inversion H; subst.
      split; [assumption|]. split; [assumption|]. split; [discriminate|].
      split; [|discriminate].
      split; [discriminate|].
      intros Hi. apply Hb1 in Hi. discriminate.
Qed.

Lemma failed_probe_cycle_run (fuel : nat) (w : World) (e : exn) :
  ps daemon (ps_calls w) = Raises e ->
  is_Exception e = true ->
  main_iteration daemon T fuel w =
  (Val Continue, after_failed_probes 1 w, failed_probe_cycle e).
Proof.
  intros Hps He. unfold_cycle.
  erewrite check_loaded_models_raises by eassumption.
  unfold probe_failure. rewrite He.
  destruct e; try discriminate He; simpl;
    unfold after_failed_probes, after_sleep, after_ps; simpl;
    (apply run_eq; [reflexivity|f_equal; lia|reflexivity]).
Qed.

Lemma main_loop_retries (fuel cycles : nat) (es : list exn) :
  forall w : World,
  (forall k e, nth_error es k = Some e ->
     ps daemon (ps_calls w + k) = Raises e /\ is_Exception e = true) ->
  main_loop daemon T (List.length es + cycles) fuel w =
  let '(r, w', evs) :=
    main_loop daemon T cycles fuel (after_failed_probes (List.length es) w) in
  (r, w', flat_map failed_probe_cycle es ++ evs).
Proof.
  induction es as [|e es IH]; intros w Hes.
  - simpl. unfold after_failed_probes.
    replace (mkWorld (clock w + 10 * Z.of_nat 0) (ps_calls w + 0)
               (generate_calls w)) with w.
    + destruct (main_loop daemon T cycles fuel w) as [[r w'] evs].
      reflexivity.
    + destruct w as [c p g]. simpl. f_equal; lia.
  - change (List.length (e :: es) + cycles)%nat
      with (S (List.length es + cycles)).
    rewrite main_loop_step.
    destruct (Hes 0%nat e eq_refl) as (Hps & He).
    rewrite Nat.add_0_r in Hps.
    rewrite (failed_probe_cycle_run fuel w e Hps He).
    rewrite IH.
    + replace (after_failed_probes (List.length es) (after_failed_probes 1 w))
        with (after_failed_probes (List.length (e :: es)) w).
      * destruct (main_loop daemon T cycles fuel
                    (after_failed_probes (List.length (e :: es)) w))
          as [[r w'] evs].
        unfold failed_probe_cycle.
        repeat first [rewrite <- app_assoc | progress simpl]. reflexivity.
      * unfold after_failed_probes. simpl clock. simpl ps_calls.
        simpl generate_calls. simpl List.length. f_equal; lia.
    + intros k e' Hk. simpl ps_calls.
      replace (ps_calls w + 1 + k)%nat with (ps_calls w + S k)%nat by lia.
      apply Hes. exact Hk.
Qed.

(** C8: a failure of a probe or of a load inside a cycle is not retried
    where it happens: the failing call is the last daemon call of the
    cycle; it is logged by the Prober or the Loader (and by the monitoring
    loop when it passes through it), reaches the handler of [main], which
    logs it and sleeps the fixed 10 seconds; the cycle then ends with
    [Continue], and the next cycle starts with a probe.  After a probe
    failure the cycle has made no load.  Any other exception of class
    [Exception] raised in the cycle is logged and followed by the same
    backoff.  No exception leaves a cycle, and a cycle ends the loop only
    when a daemon call was interrupted ([KeyboardInterrupt]).

    The loop of [main] around the cycle: after a cycle that ends with
    [Continue] the loop runs the next cycle from the world the cycle left,
    and its log follows the cycle's; after [Break] it returns.  A run of
    the loop never ends with an exception; it returns exactly when a daemon
    call it made was interrupted, and its log then ends with the stop
    line; without interrupts it never ends.  While the probes keep failing
    with exceptions [es], the loop makes one cycle per failure, each of
    one probe, the two error lines and the 10 second sleep, with no load,
    and goes on from there. *)
Theorem failure_boundary_of_cycle (fuel : nat) (w : World)
  (r : Result LoopCtl) (w' : World) (evs : list Event) :
  main_iteration daemon T fuel w = (r, w', evs) ->
  (forall e, r <> Exn e)
  /\ (exists rest, evs = EvInfo MsgEnteringCycle :: EvPs :: rest)
  /\ (generate_calls w' <= S (generate_calls w))%nat
  /\ (forall i e,
        (ps_calls w <= i < ps_calls w')%nat ->
        ps daemon i = Raises e ->
        is_Exception e = true ->
        S i = ps_calls w'
        /\ generate_calls w' = generate_calls w
        /\ count_generate evs = 0%nat
        /\ r = Val Continue
        /\ exists pre mid,
             evs = pre ++ [EvPs; EvError (ErrChecking e)] ++ mid ++ backoff e
             /\ (mid = [] \/ mid = [EvError (ErrMonitoring e)]))
  /\ (forall e,
        generate_calls w' = S (generate_calls w) ->
        generate daemon (generate_calls w) = Raises e ->
        is_Exception e = true ->
        r = Val Continue
        /\ exists pre,
             evs = pre ++ [EvGenerate T (-1); EvError (ErrLoading T e)]
                   ++ backoff e
             /\ count_generate pre = 0%nat)
  /\ (r = Val Break ->
      (exists i, (ps_calls w <= i < ps_calls w')%nat
                 /\ ps daemon i = Raises KeyboardInterrupt)
      \/ (generate_calls w' = S (generate_calls w)
          /\ generate daemon (generate_calls w) = Raises KeyboardInterrupt))
  /\ (forall e wc evc,
        main_cycle daemon T fuel w = (Exn e, wc, evc) ->
        is_Exception e = true ->
        r = Val Continue /\ w' = after_sleep 10 wc /\ evs = evc ++ backoff e)
  /\ ((forall i, ps daemon i <> Raises KeyboardInterrupt) ->
      (forall j, generate daemon j <> Raises KeyboardInterrupt) ->
      forall cycles w0,
        fst (fst (main_loop daemon T cycles fuel w0)) = OutOfFuel)
  /\ (forall cycles,
        main_loop daemon T (S cycles) fuel w =
        match r with
        | Val Continue =>
            let '(r2, w2, evs2) := main_loop daemon T cycles fuel w' in
            (r2, w2, evs ++ evs2)
        | Val Break => (Val tt, w', evs)
        | Exn e => (Exn e, w', evs)
        | OutOfFuel => (OutOfFuel, w', evs)
        end)
  /\ (forall cycles w0 r0 w0' evs0,
        main_loop daemon T cycles fuel w0 = (r0, w0', evs0) ->
        (forall e, r0 <> Exn e)
        /\ (r0 = Val tt <-> interrupted daemon w0 w0')
        /\ (r0 = Val tt -> exists pre, evs0 = pre ++ [EvInfo MsgStopped]))
  /\ (forall cycles es w0,
        (forall k e, nth_error es k = Some e ->
           ps daemon (ps_calls w0 + k) = Raises e
           /\ is_Exception e = true) ->
        main_loop daemon T (List.length es + cycles) fuel w0 =
        let '(r0, w0', evs0) :=
          main_loop daemon T cycles fuel
            (after_failed_probes (List.length es) w0) in
        (r0, w0', flat_map failed_probe_cycle es ++ evs0)).
Proof.
  intros H.
  destruct (main_iteration_boundary _ _ _ _ _ _ _ H)
    as (H1 & H2 & H3 & H4 & H5 & H6).
  repeat (split; [assumption|]).
  split.
  { intros e wc evc Hc He.
    rewrite main_iteration_cases, Hc, He in H.
    injection H as Hr Hw Hevs. auto. }
  split.
  { intros Hps Hgen cycles w0. apply main_loop_runs_on; assumption. }
  split.
  { intros cycles. rewrite main_loop_step, H. reflexivity. }
  split.
  { intros cycles w0 r0 w0' evs0 H0.
    destruct (main_loop_ends_on_stop _ _ _ _ _ _ H0)
      as (_ & _ & Hne & Hstop & Hlog).
    auto. }
  intros cycles es w0 Hes. apply main_loop_retries. assumption.
Qed.

End Loop.


Lemma failure_boundary_of_cycle_witness :
  let e := ClientError "connection refused" in
  let daemon := scripted_daemon [] (Raises e) (Returns EmptyString) in
  let w := mkWorld 50 0 0 in
  main_iteration daemon "B" 1 w =
    (Val Continue, mkWorld 60 1 0,
     [EvInfo MsgEnteringCycle; EvPs; EvError (ErrChecking e)] ++ backoff e)
  /\ 1%nat = ps_calls (mkWorld 60 1 0)
  /\ generate_calls (mkWorld 60 1 0) = generate_calls w
  /\ count_generate
       ([EvInfo MsgEnteringCycle; EvPs; EvError (ErrChecking e)] ++ backoff e)
     = 0%nat
  /\ main_loop daemon "B" 2 1 w =
     (OutOfFuel, mkWorld 70 2 0,
      failed_probe_cycle e ++ failed_probe_cycle e).
Proof.
  split; [reflexivity|].
  destruct (failure_boundary_of_cycle
              (scripted_daemon [] (Raises (ClientError "connection refused"))
                 (Returns EmptyString))
              "B" 1 (mkWorld 50 0 0) _ _ _ eq_refl)
    as (_ & _ & _ & H & _ & _ & _ & _ & _ & _ & Hretry).
  destruct (H 0%nat (ClientError "connection refused")
              (conj (le_n 0) (le_n 1)) eq_refl eq_refl)
    as (H1 & H2 & H3 & _).
  split; [exact H1|]. split; [exact H2|]. split; [exact H3|].
  apply (Hretry 0%nat
           [ClientError "connection refused";
            ClientError "connection refused"] (mkWorld 50 0 0)).
  intros [|[|k]] e' Hk; simpl in Hk;
    [inversion Hk; split; reflexivity
    |inversion Hk; split; reflexivity
    |destruct k; discriminate Hk].
Defined.
